(** * The system-call boundary of the skift kernel (syscalls.c)

    A shallow embedding of [syscall_validate_ptr], of the system-call
    handlers, of the dispatch table and of [syscall_dispatcher], followed by
    the properties the specification states about them.  Two parts of the
    user-interface toolkit are embedded after the kernel definitions: the
    dialog layer (dialog.cpp) and the sizing and placement of widgets
    (libwidget/Widget.c).

    The kernel targets 32-bit x86: the processor context delivers the call
    in [eax] and its arguments in [ebx], [ecx], [edx], [esi], [edi];
    [uintptr_t], [size_t], [uint] and [int] are all 32 bits wide.  A machine
    word is a [Z] in the range [0, 2^32); every wrap-around is written out. *)

From Stdlib Require Import ZArith Lia List Bool String FinFun.
From ExtLib Require Import Structures.Monad Data.Monads.StateMonad.
Import ListNotations.
Import MonadNotation.
Local Open Scope Z_scope.
Local Open Scope monad_scope.

(** ** Machine words *)

Definition modulus : Z := 2 ^ 32.
Definition half_modulus : Z := 2 ^ 31.

(** A value that fits the unsigned 32-bit types. *)
Definition is_word (z : Z) : Prop := 0 <= z < modulus.

(** A value that fits [int]. *)
Definition is_int (z : Z) : Prop := - half_modulus <= z < half_modulus.

(** Conversion to an unsigned 32-bit type. *)
Definition to_u32 (z : Z) : Z := z mod modulus.

(** Conversion to [int] (two's complement). *)
Definition to_s32 (z : Z) : Z :=
  if to_u32 z <? half_modulus then to_u32 z else to_u32 z - modulus.

(** ** The address validator

<<
bool syscall_validate_ptr(uintptr_t ptr, size_t size)
{
    return ptr >= 0x100000 &&
           ptr + size >= 0x100000 &&
           ptr + size >= ptr;
}
>>
    [ptr + size] is an unsigned 32-bit sum. *)

Definition syscall_validate_ptr (ptr size : Z) : bool :=
  (ptr >=? 0x100000) &&
  (to_u32 (ptr + size) >=? 0x100000) &&
  (to_u32 (ptr + size) >=? ptr).

(** ** Kernel components behind the handlers

    The handlers forward to the task, memory, messaging and filesystem
    components, which are not part of syscalls.c.  Each such function is named
    by a constructor; what it returns and how it changes the kernel is left to
    an oracle (class [Kernel] below), so every theorem holds for any
    behaviour of these components. *)

Inductive kfun : Type :=
  | sheduler_running_id | sheduler_running | sheduler_get_ticks
  | atomic_begin | atomic_end
  | task_launch | task_exit | task_cancel | task_getbyid
  | task_memory_map | task_memory_unmap | task_memory_alloc | task_memory_free
  | task_get_cwd | task_set_cwd | task_sleep | task_wakeup | task_wait
  | task_count
  | task_shared_memory_alloc | task_shared_memory_acquire
  | task_shared_memory_release
  | task_messaging_send | task_messaging_broadcast | task_messaging_request
  | task_messaging_receive | task_messaging_respond
  | task_messaging_subscribe | task_messaging_unsubscribe
  | task_cwd_resolve | path_delete
  | filesystem_mkdir | filesystem_mkpipe | filesystem_mklink
  | filesystem_unlink | filesystem_rename
  | strlcpy | snprintf
  | memory_get_total | memory_get_used | clock_now
  | task_fshandle_open | task_fshandle_close | task_fshandle_select
  | task_fshandle_read | task_fshandle_write | task_fshandle_call
  | task_fshandle_seek | task_fshandle_tell | task_fshandle_stat
  | task_fshandle_connect | task_fshandle_accept | task_fshandle_send
  | task_fshandle_receive | task_fshandle_payload | task_fshandle_discard.

(** An argument of a call: a scalar or pointer word, the address of a field
    of the structure a pointer designates ([base->field]; the layouts of
    [SystemInfo] and [SystemStatus] are not needed), or a kernel constant
    or string literal named by its source text. *)
Inductive arg : Type :=
  | W (z : Z)
  | Fld (base : Z) (field : string)
  | Sym (name : string).

(** The lines the dispatcher writes to the kernel log. *)
Inductive logline : Type :=
  (* logger_error("Syscall not implemented ID=%d call by PROCESS=%d.", ...) *)
  | LogNotImplemented (syscall pid : Z)
  (* logger_error("Unknow syscall ID=%d call by PROCESS=%d.", ...) *)
  | LogUnknown (syscall pid : Z)
  (* logger_info("context: EBX=%08x, ECX=%08x, ...", ...) *)
  | LogContext (ebx ecx edx esi edi : Z)
  (* logger_info("Syscall %s(0x%08x, ...) returned %s", syscall_names[syscall],
     ..., error_to_string(code)): the name is kept as its index into
     [syscall_names], the error text as the code handed to [error_to_string]. *)
  | LogReturned (syscall ebx ecx edx esi edi code : Z).

(** What a system call does, in order. *)
Inductive event : Type :=
  | EvInvoke (syscall : Z)                 (* the indirect call through syscalls[syscall] *)
  | EvCall (f : kfun) (args : list arg)    (* a call into a kernel component *)
  | EvStore (dst : arg) (value : Z)        (* an assignment through a user-supplied pointer *)
  | EvLog (line : logline).

(** The kernel as the handlers see it: the state of its components and the
    record of what has been done so far. *)
Record world (K : Type) : Type := mkWorld {
  kstate : K;
  trace : list event
}.
Arguments mkWorld {K} _ _.
Arguments kstate {K} _.
Arguments trace {K} _.

Class Kernel (K : Type) : Type := {
  (* new state and returned value of a component function *)
  kernel : kfun -> list arg -> K -> K * Z;
  (* effect of a store through a pointer *)
  poke : arg -> Z -> K -> K
}.

(** The registers of [processor_context_t] that the dispatcher uses. *)
Record processor_context_t : Type := mkContext {
  eax : Z; ebx : Z; ecx : Z; edx : Z; esi : Z; edi : Z
}.

Definition set_eax (context : processor_context_t) (v : Z) : processor_context_t :=
  {| eax := v; ebx := ebx context; ecx := ecx context; edx := edx context;
     esi := esi context; edi := edi context |}.

(** The enumerators that designate entries of the dispatch table. *)
Inductive Syscall : Type :=
  | SYS_PROCESS_THIS | SYS_PROCESS_LAUNCH | SYS_PROCESS_EXIT
  | SYS_PROCESS_CANCEL | SYS_PROCESS_SLEEP | SYS_PROCESS_WAKEUP
  | SYS_PROCESS_WAIT | SYS_PROCESS_GET_CWD | SYS_PROCESS_SET_CWD
  | SYS_PROCESS_MAP | SYS_PROCESS_UNMAP | SYS_PROCESS_ALLOC | SYS_PROCESS_FREE
  | SYS_SHARED_MEMORY_ALLOC | SYS_SHARED_MEMORY_ACQUIRE
  | SYS_SHARED_MEMORY_RELEASE
  | SYS_MESSAGING_SEND | SYS_MESSAGING_BROADCAST | SYS_MESSAGING_REQUEST
  | SYS_MESSAGING_RECEIVE | SYS_MESSAGING_RESPOND | SYS_MESSAGING_SUBSCRIBE
  | SYS_MESSAGING_UNSUBSCRIBE
  | SYS_FILESYSTEM_MKDIR | SYS_FILESYSTEM_MKPIPE | SYS_FILESYSTEM_LINK
  | SYS_FILESYSTEM_UNLINK | SYS_FILESYSTEM_RENAME
  | SYS_SYSTEM_GET_INFO | SYS_SYSTEM_GET_STATUS | SYS_SYSTEM_GET_TIME
  | SYS_SYSTEM_GET_TICKS
  | SYS_HANDLE_OPEN | SYS_HANDLE_CLOSE | SYS_HANDLE_SELECT | SYS_HANDLE_READ
  | SYS_HANDLE_WRITE | SYS_HANDLE_CALL | SYS_HANDLE_SEEK | SYS_HANDLE_TELL
  | SYS_HANDLE_STAT | SYS_HANDLE_CONNECT | SYS_HANDLE_ACCEPT | SYS_HANDLE_SEND
  | SYS_HANDLE_RECEIVE | SYS_HANDLE_PAYLOAD | SYS_HANDLE_DISCARD.

(** What syscalls.c takes from headers that are not at hand
    (libsystem/error.h, abi/Syscalls.h, abi/Launchpad.h, ...): the error
    codes, the enumeration [Syscall] (the value of each enumerator, the
    enumerator count, and whether the compiler gives the enumeration a signed
    type) and the sizes of three structures. *)
Class Abi : Type := {
  ERR_SUCCESS : Z;
  ERR_BAD_ADDRESS : Z;
  ERR_FUNCTION_NOT_IMPLEMENTED : Z;
  enum_value : Syscall -> Z;
  SYSCALL_COUNT : Z;
  enum_signed : bool;
  sizeof_Launchpad : Z;
  sizeof_SelectEvent : Z;
  sizeof_FileState : Z
}.

Definition sizeof_int : Z := 4.
Definition sizeof_size_t : Z := 4.

(** ** Sample instances

    Used to run the definitions on concrete inputs.  The sample error codes
    are arbitrary positive numbers and the sample enumeration numbers the
    enumerators in the order of the table initialiser; no theorem depends on
    these choices. *)

Definition table_order (s : Syscall) : Z :=
  match s with
  | SYS_PROCESS_THIS => 0 | SYS_PROCESS_LAUNCH => 1 | SYS_PROCESS_EXIT => 2
  | SYS_PROCESS_CANCEL => 3 | SYS_PROCESS_SLEEP => 4 | SYS_PROCESS_WAKEUP => 5
  | SYS_PROCESS_WAIT => 6 | SYS_PROCESS_GET_CWD => 7 | SYS_PROCESS_SET_CWD => 8
  | SYS_PROCESS_MAP => 9 | SYS_PROCESS_UNMAP => 10 | SYS_PROCESS_ALLOC => 11
  | SYS_PROCESS_FREE => 12
  | SYS_SHARED_MEMORY_ALLOC => 13 | SYS_SHARED_MEMORY_ACQUIRE => 14
  | SYS_SHARED_MEMORY_RELEASE => 15
  | SYS_MESSAGING_SEND => 16 | SYS_MESSAGING_BROADCAST => 17
  | SYS_MESSAGING_REQUEST => 18 | SYS_MESSAGING_RECEIVE => 19
  | SYS_MESSAGING_RESPOND => 20 | SYS_MESSAGING_SUBSCRIBE => 21
  | SYS_MESSAGING_UNSUBSCRIBE => 22
  | SYS_FILESYSTEM_MKDIR => 23 | SYS_FILESYSTEM_MKPIPE => 24
  | SYS_FILESYSTEM_LINK => 25 | SYS_FILESYSTEM_UNLINK => 26
  | SYS_FILESYSTEM_RENAME => 27
  | SYS_SYSTEM_GET_INFO => 28 | SYS_SYSTEM_GET_STATUS => 29
  | SYS_SYSTEM_GET_TIME => 30 | SYS_SYSTEM_GET_TICKS => 31
  | SYS_HANDLE_OPEN => 32 | SYS_HANDLE_CLOSE => 33 | SYS_HANDLE_SELECT => 34
  | SYS_HANDLE_READ => 35 | SYS_HANDLE_WRITE => 36 | SYS_HANDLE_CALL => 37
  | SYS_HANDLE_SEEK => 38 | SYS_HANDLE_TELL => 39 | SYS_HANDLE_STAT => 40
  | SYS_HANDLE_CONNECT => 41 | SYS_HANDLE_ACCEPT => 42 | SYS_HANDLE_SEND => 43
  | SYS_HANDLE_RECEIVE => 44 | SYS_HANDLE_PAYLOAD => 45
  | SYS_HANDLE_DISCARD => 46
  end.

Definition sample_abi : Abi := {|
  ERR_SUCCESS := 0;
  ERR_BAD_ADDRESS := 7;
  ERR_FUNCTION_NOT_IMPLEMENTED := 25;
  enum_value := table_order;
  SYSCALL_COUNT := 47;
  enum_signed := false;
  sizeof_Launchpad := 64;
  sizeof_SelectEvent := 4;
  sizeof_FileState := 8
|}.

(** The same with one enumerator more than the table has initialisers: the
    entry of index 47 is a null pointer. *)
Definition padded_abi : Abi := {|
  ERR_SUCCESS := 0;
  ERR_BAD_ADDRESS := 7;
  ERR_FUNCTION_NOT_IMPLEMENTED := 25;
  enum_value := table_order;
  SYSCALL_COUNT := 48;
  enum_signed := true;
  sizeof_Launchpad := 64;
  sizeof_SelectEvent := 4;
  sizeof_FileState := 8
|}.

(** A kernel whose state counts the calls made into it; every component
    function answers with the number of earlier calls, except
    [task_memory_free], which refuses every request with -1. *)
Definition counting_kernel : Kernel Z := {|
  kernel := fun f _ n =>
    match f with
    | task_memory_free => (n + 1, -1)
    | _ => (n + 1, n)
    end;
  poke := fun _ _ n => n + 1
|}.

Definition boot : world Z := mkWorld 0 [].

(** ** The handlers *)

Section Syscalls.

Context {K : Type} {kern : Kernel K} {abi : Abi}.

(** Handlers run in the state monad over the kernel world. *)
Local Abbreviation sys := (state (world K)).

Definition emit (e : event) : sys unit :=
  mkState (fun w => (tt, mkWorld (kstate w) (trace w ++ [e]))).

(** Call of a component function that returns [int]. *)
Definition call (f : kfun) (args : list arg) : sys Z :=
  mkState (fun w =>
    (to_s32 (snd (kernel f args (kstate w))),
     mkWorld (fst (kernel f args (kstate w))) (trace w ++ [EvCall f args]))).

(** Call of a component function that returns a pointer or an unsigned
    word. *)
Definition callu (f : kfun) (args : list arg) : sys Z :=
  mkState (fun w =>
    (to_u32 (snd (kernel f args (kstate w))),
     mkWorld (fst (kernel f args (kstate w))) (trace w ++ [EvCall f args]))).

(** [*dst = value] where [dst] derives from a pointer argument. *)
Definition store (dst : arg) (value : Z) : sys unit :=
  mkState (fun w =>
    (tt, mkWorld (poke dst value (kstate w)) (trace w ++ [EvStore dst value]))).

Definition log (line : logline) : sys unit := emit (EvLog line).

(** Modelled from the spec: the macro [ATOMIC] of libsystem/atomic.h is not
    at hand; a critical section that is entered before the body and left
    after it (section 5 of the specification), here a pair of calls around
    the body. *)
Definition ATOMIC {A : Type} (body : sys A) : sys A :=
  _ <- call atomic_begin [] ;;
  r <- body ;;
  _ <- call atomic_end [] ;;
  ret r.

(** Every parameter of a handler is one 32-bit argument word, whatever its C
    type; a cast between [int], [uint] and a pointer keeps the 32 bits. *)

(* --- Process --- *)

Definition sys_process_this : sys Z :=
  call sheduler_running_id [].

Definition sys_process_launch (launchpad : Z) : sys Z :=
  if negb (syscall_validate_ptr launchpad sizeof_Launchpad) then
    ret (- ERR_BAD_ADDRESS)
  else
    t <- callu sheduler_running [] ;;
    call task_launch [W t; W launchpad].

Definition sys_process_exit (code : Z) : sys Z :=
  _ <- call task_exit [W code] ;;
  ret 0.

Definition sys_process_cancel (pid : Z) : sys Z :=
  ATOMIC (t <- callu task_getbyid [W pid] ;;
          call task_cancel [W t; W (-1)]).

Definition sys_process_map (addr count : Z) : sys Z :=
  t <- callu sheduler_running [] ;;
  call task_memory_map [W t; W addr; W count].

Definition sys_process_unmap (addr count : Z) : sys Z :=
  t <- callu sheduler_running [] ;;
  call task_memory_unmap [W t; W addr; W count].

Definition sys_process_alloc (count : Z) : sys Z :=
  t <- callu sheduler_running [] ;;
  call task_memory_alloc [W t; W count].

Definition sys_process_free (addr count : Z) : sys Z :=
  t <- callu sheduler_running [] ;;
  _ <- call task_memory_free [W t; W addr; W count] ;;
  ret 0.

Definition sys_process_get_cwd (buffer size : Z) : sys Z :=
  t <- callu sheduler_running [] ;;
  _ <- call task_get_cwd [W t; W buffer; W size] ;;
  ret 0.

Definition sys_process_set_cwd (path : Z) : sys Z :=
  t <- callu sheduler_running [] ;;
  call task_set_cwd [W t; W path].

Definition sys_process_sleep (time : Z) : sys Z :=
  t <- callu sheduler_running [] ;;
  call task_sleep [W t; W time].

Definition sys_process_wakeup (tid : Z) : sys Z :=
  ATOMIC (t <- callu task_getbyid [W tid] ;;
          call task_wakeup [W t]).

Definition sys_process_wait (tid exitvalue : Z) : sys Z :=
  call task_wait [W tid; W exitvalue].

(* --- Shared memory --- *)

Definition sys_shared_memory_alloc (pagecount : Z) : sys Z :=
  t <- callu sheduler_running [] ;;
  call task_shared_memory_alloc [W t; W pagecount].

Definition sys_shared_memory_acquire (shm addr : Z) : sys Z :=
  t <- callu sheduler_running [] ;;
  call task_shared_memory_acquire [W t; W shm; W addr].

Definition sys_shared_memory_release (shm : Z) : sys Z :=
  t <- callu sheduler_running [] ;;
  call task_shared_memory_release [W t; W shm].

(* --- Messaging --- *)

Definition sys_messaging_send (event : Z) : sys Z :=
  t <- callu sheduler_running [] ;;
  call task_messaging_send [W t; W event].

Definition sys_messaging_broadcast (channel event : Z) : sys Z :=
  t <- callu sheduler_running [] ;;
  call task_messaging_broadcast [W t; W channel; W event].

Definition sys_messaging_request (request result timeout : Z) : sys Z :=
  t <- callu sheduler_running [] ;;
  call task_messaging_request [W t; W request; W result; W timeout].

Definition sys_messaging_receive (message wait : Z) : sys Z :=
  t <- callu sheduler_running [] ;;
  call task_messaging_receive [W t; W message; W wait].

Definition sys_messaging_respond (request result : Z) : sys Z :=
  t <- callu sheduler_running [] ;;
  call task_messaging_respond [W t; W request; W result].

Definition sys_messaging_subscribe (channel : Z) : sys Z :=
  t <- callu sheduler_running [] ;;
  call task_messaging_subscribe [W t; W channel].

Definition sys_messaging_unsubscribe (channel : Z) : sys Z :=
  t <- callu sheduler_running [] ;;
  call task_messaging_unsubscribe [W t; W channel].

(* --- Filesystem --- *)

Definition sys_filesystem_mkdir (dir_path : Z) : sys Z :=
  t <- callu sheduler_running [] ;;
  path <- callu task_cwd_resolve [W t; W dir_path] ;;
  result <- call filesystem_mkdir [W path] ;;
  _ <- call path_delete [W path] ;;
  ret result.

Definition sys_filesystem_mkpipe (fifo_path : Z) : sys Z :=
  t <- callu sheduler_running [] ;;
  path <- callu task_cwd_resolve [W t; W fifo_path] ;;
  result <- call filesystem_mkpipe [W path] ;;
  _ <- call path_delete [W path] ;;
  ret result.

Definition sys_filesystem_link (old_path new_path : Z) : sys Z :=
  t <- callu sheduler_running [] ;;
  oldp <- callu task_cwd_resolve [W t; W old_path] ;;
  t' <- callu sheduler_running [] ;;
  newp <- callu task_cwd_resolve [W t'; W new_path] ;;
  result <- call filesystem_mklink [W oldp; W newp] ;;
  _ <- call path_delete [W oldp] ;;
  _ <- call path_delete [W newp] ;;
  ret result.

Definition sys_filesystem_unlink (link_path : Z) : sys Z :=
  t <- callu sheduler_running [] ;;
  path <- callu task_cwd_resolve [W t; W link_path] ;;
  result <- call filesystem_unlink [W path] ;;
  _ <- call path_delete [W path] ;;
  ret result.

Definition sys_filesystem_rename (old_path new_path : Z) : sys Z :=
  t <- callu sheduler_running [] ;;
  oldp <- callu task_cwd_resolve [W t; W old_path] ;;
  t' <- callu sheduler_running [] ;;
  newp <- callu task_cwd_resolve [W t'; W new_path] ;;
  result <- call filesystem_rename [W oldp; W newp] ;;
  _ <- call path_delete [W oldp] ;;
  _ <- call path_delete [W newp] ;;
  ret result.

(* --- System info getters --- *)

Definition sys_system_get_info (info : Z) : sys Z :=
  _ <- call strlcpy [Fld info "kernel_name"; Sym "__kernel_name";
                     Sym "SYSTEM_INFO_FIELD_SIZE"] ;;
  _ <- call snprintf [Fld info "kernel_release"; Sym "SYSTEM_INFO_FIELD_SIZE";
                      Sym "__kernel_version_format";
                      Sym "__kernel_version_major"; Sym "__kernel_version_minor";
                      Sym "__kernel_version_patch";
                      Sym "__kernel_version_codename"] ;;
  _ <- call strlcpy [Fld info "system_name"; Sym "skift";
                     Sym "SYSTEM_INFO_FIELD_SIZE"] ;;
  _ <- call strlcpy [Fld info "machine"; Sym "machine";
                     Sym "SYSTEM_INFO_FIELD_SIZE"] ;;
  ret ERR_SUCCESS.

Definition sys_system_get_status (status : Z) : sys Z :=
  store (Fld status "uptime") 0 ;;
  total <- callu memory_get_total [] ;;
  store (Fld status "total_ram") total ;;
  used <- callu memory_get_used [] ;;
  store (Fld status "used_ram") used ;;
  running <- call task_count [] ;;
  store (Fld status "running_tasks") running ;;
  ret (- ERR_SUCCESS).

Definition sys_system_get_time (timestamp : Z) : sys Z :=
  now <- callu clock_now [] ;;
  store (W timestamp) now ;;
  ret (- ERR_SUCCESS).

Definition sys_system_get_ticks : sys Z :=
  call sheduler_get_ticks [].

(* --- Handles --- *)

Definition sys_handle_open (handle path flags : Z) : sys Z :=
  if negb (syscall_validate_ptr handle sizeof_int) then
    ret ERR_BAD_ADDRESS
  else
    t <- callu sheduler_running [] ;;
    call task_fshandle_open [W t; W handle; W path; W flags].

Definition sys_handle_close (handle : Z) : sys Z :=
  t <- callu sheduler_running [] ;;
  call task_fshandle_close [W t; W handle].

(** [sizeof(int) * count] and [sizeof(SelectEvent) * count] are products in
    [size_t]. *)
Definition sys_handle_select (handles events count selected : Z) : sys Z :=
  if negb (syscall_validate_ptr handles (to_u32 (sizeof_int * count))) ||
     negb (syscall_validate_ptr events (to_u32 (sizeof_SelectEvent * count))) ||
     negb (syscall_validate_ptr selected sizeof_int) then
    ret ERR_BAD_ADDRESS
  else
    t <- callu sheduler_running [] ;;
    call task_fshandle_select [W t; W handles; W events; W count; W selected].

Definition sys_handle_read (handle buffer size readed : Z) : sys Z :=
  if negb (syscall_validate_ptr buffer size) ||
     negb (syscall_validate_ptr readed sizeof_size_t) then
    ret ERR_BAD_ADDRESS
  else
    t <- callu sheduler_running [] ;;
    call task_fshandle_read [W t; W handle; W buffer; W size; W readed].

Definition sys_handle_write (handle buffer size written : Z) : sys Z :=
  if negb (syscall_validate_ptr buffer size) ||
     negb (syscall_validate_ptr written sizeof_size_t) then
    ret ERR_BAD_ADDRESS
  else
    t <- callu sheduler_running [] ;;
    call task_fshandle_write [W t; W handle; W buffer; W size; W written].

Definition sys_handle_call (handle request args : Z) : sys Z :=
  t <- callu sheduler_running [] ;;
  call task_fshandle_call [W t; W handle; W request; W args].

Definition sys_handle_seek (handle offset whence : Z) : sys Z :=
  t <- callu sheduler_running [] ;;
  call task_fshandle_seek [W t; W handle; W offset; W whence].

Definition sys_handle_tell (handle whence offset : Z) : sys Z :=
  if negb (syscall_validate_ptr offset sizeof_int) then
    ret ERR_BAD_ADDRESS
  else
    t <- callu sheduler_running [] ;;
    call task_fshandle_tell [W t; W handle; W whence; W offset].

Definition sys_handle_stat (handle state : Z) : sys Z :=
  if negb (syscall_validate_ptr state sizeof_FileState) then
    ret ERR_BAD_ADDRESS
  else
    t <- callu sheduler_running [] ;;
    call task_fshandle_stat [W t; W handle; W state].

Definition sys_handle_connect (handle path : Z) : sys Z :=
  t <- callu sheduler_running [] ;;
  call task_fshandle_connect [W t; W handle; W path].

Definition sys_handle_accept (handle connection_handle : Z) : sys Z :=
  t <- callu sheduler_running [] ;;
  call task_fshandle_accept [W t; W handle; W connection_handle].

Definition sys_handle_send (handle message : Z) : sys Z :=
  t <- callu sheduler_running [] ;;
  call task_fshandle_send [W t; W handle; W message].

Definition sys_handle_receive (handle message : Z) : sys Z :=
  t <- callu sheduler_running [] ;;
  call task_fshandle_receive [W t; W handle; W message].

Definition sys_handle_payload (handle message : Z) : sys Z :=
  t <- callu sheduler_running [] ;;
  call task_fshandle_payload [W t; W handle; W message].

Definition sys_handle_discard (handle : Z) : sys Z :=
  t <- callu sheduler_running [] ;;
  call task_fshandle_discard [W t; W handle].

(** ** The dispatch table

    A [syscall_handler_t] takes five [int] and returns [int]; a handler
    with fewer parameters ignores the remaining argument words. *)

Local Abbreviation syscall_handler_t := (Z -> Z -> Z -> Z -> Z -> sys Z).

(** The designated initialisers of [syscalls], in source order. *)
Definition syscalls_init : list (Syscall * syscall_handler_t) :=
  [ (SYS_PROCESS_THIS, fun _ _ _ _ _ => sys_process_this);
    (SYS_PROCESS_LAUNCH, fun a _ _ _ _ => sys_process_launch a);
    (SYS_PROCESS_EXIT, fun a _ _ _ _ => sys_process_exit a);
    (SYS_PROCESS_CANCEL, fun a _ _ _ _ => sys_process_cancel a);
    (SYS_PROCESS_SLEEP, fun a _ _ _ _ => sys_process_sleep a);
    (SYS_PROCESS_WAKEUP, fun a _ _ _ _ => sys_process_wakeup a);
    (SYS_PROCESS_WAIT, fun a b _ _ _ => sys_process_wait a b);
    (SYS_PROCESS_GET_CWD, fun a b _ _ _ => sys_process_get_cwd a b);
    (SYS_PROCESS_SET_CWD, fun a _ _ _ _ => sys_process_set_cwd a);
    (SYS_PROCESS_MAP, fun a b _ _ _ => sys_process_map a b);
    (SYS_PROCESS_UNMAP, fun a b _ _ _ => sys_process_unmap a b);
    (SYS_PROCESS_ALLOC, fun a _ _ _ _ => sys_process_alloc a);
    (SYS_PROCESS_FREE, fun a b _ _ _ => sys_process_free a b);

    (SYS_SHARED_MEMORY_ALLOC, fun a _ _ _ _ => sys_shared_memory_alloc a);
    (SYS_SHARED_MEMORY_ACQUIRE, fun a b _ _ _ => sys_shared_memory_acquire a b);
    (SYS_SHARED_MEMORY_RELEASE, fun a _ _ _ _ => sys_shared_memory_release a);

    (SYS_MESSAGING_SEND, fun a _ _ _ _ => sys_messaging_send a);
    (SYS_MESSAGING_BROADCAST, fun a b _ _ _ => sys_messaging_broadcast a b);
    (SYS_MESSAGING_REQUEST, fun a b c _ _ => sys_messaging_request a b c);
    (SYS_MESSAGING_RECEIVE, fun a b _ _ _ => sys_messaging_receive a b);
    (SYS_MESSAGING_RESPOND, fun a b _ _ _ => sys_messaging_respond a b);
    (SYS_MESSAGING_SUBSCRIBE, fun a _ _ _ _ => sys_messaging_subscribe a);
    (SYS_MESSAGING_UNSUBSCRIBE, fun a _ _ _ _ => sys_messaging_unsubscribe a);

    (SYS_FILESYSTEM_MKDIR, fun a _ _ _ _ => sys_filesystem_mkdir a);
    (SYS_FILESYSTEM_MKPIPE, fun a _ _ _ _ => sys_filesystem_mkpipe a);
    (SYS_FILESYSTEM_LINK, fun a b _ _ _ => sys_filesystem_link a b);
    (SYS_FILESYSTEM_UNLINK, fun a _ _ _ _ => sys_filesystem_unlink a);
    (SYS_FILESYSTEM_RENAME, fun a b _ _ _ => sys_filesystem_rename a b);

    (SYS_SYSTEM_GET_INFO, fun a _ _ _ _ => sys_system_get_info a);
    (SYS_SYSTEM_GET_STATUS, fun a _ _ _ _ => sys_system_get_status a);
    (SYS_SYSTEM_GET_TIME, fun a _ _ _ _ => sys_system_get_time a);
    (SYS_SYSTEM_GET_TICKS, fun _ _ _ _ _ => sys_system_get_ticks);

    (SYS_HANDLE_OPEN, fun a b c _ _ => sys_handle_open a b c);
    (SYS_HANDLE_CLOSE, fun a _ _ _ _ => sys_handle_close a);
    (SYS_HANDLE_SELECT, fun a b c d _ => sys_handle_select a b c d);
    (SYS_HANDLE_READ, fun a b c d _ => sys_handle_read a b c d);
    (SYS_HANDLE_WRITE, fun a b c d _ => sys_handle_write a b c d);
    (SYS_HANDLE_CALL, fun a b c _ _ => sys_handle_call a b c);
    (SYS_HANDLE_SEEK, fun a b c _ _ => sys_handle_seek a b c);
    (SYS_HANDLE_TELL, fun a b c _ _ => sys_handle_tell a b c);
    (SYS_HANDLE_STAT, fun a b _ _ _ => sys_handle_stat a b);
    (SYS_HANDLE_CONNECT, fun a b _ _ _ => sys_handle_connect a b);
    (SYS_HANDLE_ACCEPT, fun a b _ _ _ => sys_handle_accept a b);
    (SYS_HANDLE_SEND, fun a b _ _ _ => sys_handle_send a b);
    (SYS_HANDLE_RECEIVE, fun a b _ _ _ => sys_handle_receive a b);
    (SYS_HANDLE_PAYLOAD, fun a b _ _ _ => sys_handle_payload a b);
    (SYS_HANDLE_DISCARD, fun a _ _ _ _ => sys_handle_discard a) ].

(** [syscalls[index]] for an index inside the array: the handler of the
    last initialiser that designates [index], [None] (a null pointer) when
    no initialiser does. *)
Definition syscalls (index : Z) : option syscall_handler_t :=
  option_map snd
    (find (fun entry => enum_value (fst entry) =? index) (rev syscalls_init)).

(** ** The dispatcher *)

(** [(Syscall)context->eax]: the register read at the type of the
    enumeration. *)
Definition decode_syscall (reg : Z) : Z :=
  if enum_signed then to_s32 reg else to_u32 reg.

Definition syscall_get_handler (syscall : Z) : sys (option syscall_handler_t) :=
  if (syscall >=? 0) && (syscall <? SYSCALL_COUNT) then
    (match syscalls syscall with
     | None =>
         pid <- call sheduler_running_id [] ;;
         log (LogNotImplemented syscall pid)
     | Some _ => ret tt
     end) ;;
    ret (syscalls syscall)
  else
    pid <- call sheduler_running_id [] ;;
    log (LogUnknown syscall pid) ;;
    ret None.

(** [syscall_names[index]].  The array is
    [{SYSCALL_LIST(SYSCALL_NAMES_ENTRY)}]: one string per entry of the list
    from which the enumeration is generated too, [__SYSCALL_COUNT] closing
    the enumeration, so it has [SYSCALL_COUNT] elements.  An element is kept
    as its index; [None] is a read outside the array. *)
Definition syscall_names (index : Z) : option Z :=
  if (index >=? 0) && (index <? SYSCALL_COUNT) then Some index else None.

(** How a run of the dispatcher ends.  The two logging statements index
    [syscall_names] with the identifier as it came, without a range test;
    for an index outside the array the behaviour of the C program is
    undefined (on the machine: a read of whatever lies beside the array,
    handed to the formatter as a string pointer).  Such a run is followed no
    further: it ends in [OutOfBounds] with the context as it stood and the
    offending index. *)
Inductive outcome : Type :=
  | Returned (context : processor_context_t)
  | OutOfBounds (context : processor_context_t) (index : Z).

(** The context at the end of a run. *)
Definition reached (o : outcome) : processor_context_t :=
  match o with
  | Returned context => context
  | OutOfBounds context _ => context
  end.

(** [logger_info("Syscall %s(...) returned %s", syscall_names[syscall], ...,
    error_to_string(code))]; [false] when the name cannot be read. *)
Definition log_returned (syscall : Z) (context : processor_context_t) (code : Z)
  : sys bool :=
  match syscall_names syscall with
  | Some name =>
      log (LogReturned name (ebx context) (ecx context) (edx context)
                       (esi context) (edi context) code) ;;
      ret true
  | None => ret false
  end.

(** [context->eax] is an unsigned 32-bit register: the handler's [int] is
    converted on the store, [ERR_SUCCESS] on the comparison, and
    [-context->eax] is negation modulo 2^32. *)
Definition syscall_dispatcher (context : processor_context_t) : sys outcome :=
  let syscall := decode_syscall (eax context) in
  handler <- syscall_get_handler syscall ;;
  context <-
    match handler with
    | Some handler =>
        emit (EvInvoke syscall) ;;
        result <- handler (ebx context) (ecx context) (edx context)
                          (esi context) (edi context) ;;
        ret (set_eax context (to_u32 result))
    | None =>
        log (LogContext (ebx context) (ecx context) (edx context)
                        (esi context) (edi context)) ;;
        ret (set_eax context (to_u32 (- ERR_FUNCTION_NOT_IMPLEMENTED)))
    end ;;
  named <-
    (if (syscall >=? enum_value SYS_HANDLE_OPEN) &&
        negb (eax context =? to_u32 ERR_SUCCESS) then
       log_returned syscall context (eax context)
     else ret true) ;;
  if negb named then ret (OutOfBounds context syscall)
  else
    named <-
      (if (syscall <? enum_value SYS_HANDLE_OPEN) &&
          (to_s32 (eax context) <? 0) then
         log_returned syscall context (to_u32 (- eax context))
       else ret true) ;;
    if negb named then ret (OutOfBounds context syscall)
    else ret (Returned context).

(** ** Vocabulary of the statements about the dispatcher *)

(** A world with further events on its record. *)
Definition add_trace (w : world K) (events : list event) : world K :=
  mkWorld (kstate w) (trace w ++ events).

(** The context and the world at the point where the dispatcher has stored
    the result in [eax], that is after the handler has returned or after
    the not-implemented branch, and before the two logging tests. *)
Definition stored_result (context : processor_context_t) (w : world K)
  : processor_context_t * world K :=
  let syscall := decode_syscall (eax context) in
  let looked := runState (syscall_get_handler syscall) w in
  match fst looked with
  | Some handler =>
      let ran := runState (handler (ebx context) (ecx context) (edx context)
                                   (esi context) (edi context))
                          (add_trace (snd looked) [EvInvoke syscall]) in
      (set_eax context (to_u32 (fst ran)), snd ran)
  | None =>
      (set_eax context (to_u32 (- ERR_FUNCTION_NOT_IMPLEMENTED)),
       add_trace (snd looked)
         [EvLog (LogContext (ebx context) (ecx context) (edx context)
                            (esi context) (edi context))])
  end.

(** The two tests that guard the logging statements, as the code writes
    them: one of them holds for the identifier and the stored result. *)
Definition logging_test (syscall result : Z) : bool :=
  ((syscall >=? enum_value SYS_HANDLE_OPEN) &&
   negb (result =? to_u32 ERR_SUCCESS)) ||
  ((syscall <? enum_value SYS_HANDLE_OPEN) && (to_s32 result <? 0)).

(** The code handed to [error_to_string] by the logging statement that
    runs: the result itself from [SYS_HANDLE_OPEN] on, its negation
    below. *)
Definition logged_code (syscall result : Z) : Z :=
  if syscall >=? enum_value SYS_HANDLE_OPEN then result
  else to_u32 (- result).

(** The identifier is an index of the enumeration. *)
Definition in_enumeration (syscall : Z) : Prop :=
  0 <= syscall < SYSCALL_COUNT.

(** The failure condition of the specification: the identifier is in the
    handle range, from [SYS_HANDLE_OPEN] to the end of the enumeration, and
    the result is not success, or the identifier is an enumerator below the
    handle range and the result is negative as an [int]. *)
Definition failure_condition (syscall result : Z) : Prop :=
  in_enumeration syscall /\
  ((enum_value SYS_HANDLE_OPEN <= syscall /\ result <> to_u32 ERR_SUCCESS) \/
   (syscall < enum_value SYS_HANDLE_OPEN /\ to_s32 result < 0)).

(** Events that come from the dispatcher's own bookkeeping: log lines and
    the query of the running process id for them.  Neither a handler
    invocation, nor a call into a component that receives an argument, nor
    a store through a pointer is among them. *)
Definition dispatcher_own (e : event) : bool :=
  match e with
  | EvLog _ => true
  | EvCall sheduler_running_id [] => true
  | _ => false
  end.

(** The policy of the validator applied to a range of [length] bytes, where
    [length] is the number of bytes itself and not its reduction to
    [size_t]. *)
Definition range_allowed (base length : Z) : Prop :=
  0x100000 <= base /\ base + length < modulus /\ 0x100000 <= base + length.

End Syscalls.

(** ** Vocabulary of further statements about the handlers *)

(** Component functions that syscalls.c calls on a task found by its id. *)
Definition by_task_id (f : kfun) : bool :=
  match f with
  | task_getbyid | task_cancel | task_wakeup => true
  | _ => false
  end.

(** Scan of a record of events for the critical sections of [ATOMIC]:
    [inside] tells whether a section is open.  The scan fails ([None]) on a
    section opened inside another, on a section closed that was not open,
    and on a [by_task_id] call outside a section; otherwise it tells
    whether a section is open at the end. *)
Fixpoint atomic_sections (inside : bool) (events : list event) : option bool :=
  match events with
  | [] => Some inside
  | EvCall atomic_begin _ :: rest =>
      if inside then None else atomic_sections true rest
  | EvCall atomic_end _ :: rest =>
      if inside then atomic_sections false rest else None
  | EvCall f _ :: rest =>
      if by_task_id f && negb inside then None else atomic_sections inside rest
  | _ :: rest => atomic_sections inside rest
  end.





(** * The dialog layer of the user-interface toolkit (dialog.cpp)

    [DialogLayer] wraps a child node and shows at most one dialog above it.
    [show] and [close] only record a request; the next [layout] carries it
    out.  The nodes, rectangles and events are those of the toolkit and are
    left abstract; what the layer does to other objects (attach, detach,
    layout and event delivery, the opacity animation) is returned as a list
    of effects.  Dereferencing an empty [Opt] panics: a method that does so
    returns [None]. *)

Module DialogLayer.

Section Model.

Context {Node Rect Event : Type}.

Inductive effect : Type :=
  | Attach (n : Node)                  (* n->attach(this) *)
  | Detach (n : Node)                  (* n->detach(this) *)
  | ShouldLayout                       (* shouldLayout of this layer *)
  | Animate (target : Z)               (* _opacity.animate towards 1 or 0 *)
  | AnimEvent (e : Event)              (* _opacity.event *)
  | NodeEvent (n : Node) (e : Event)   (* n.event(e) *)
  | NodeLayout (n : Node) (r : Rect).  (* n.layout(r) *)

(** The members of the layer, the animated opacity apart. *)
Record t : Type := mk {
  _child : Node;
  _dialog : option Node;
  _shouldShow : option Node;
  _shouldClose : bool
}.

(** [DialogLayer(Child child)] *)
Definition create (child : Node) : t * list effect :=
  (mk child None None false, [Attach child]).

(** [~DialogLayer()] *)
Definition destroy (s : t) : list effect :=
  (match _dialog s with
   | Some d => [Detach d]
   | None => []
   end) ++ [Detach (_child s)].

Definition visible (s : t) : bool :=
  match _dialog s with
  | Some _ => true
  | None => false
  end.

Definition show (dialog : Node) (s : t) : t * list effect :=
  (mk (_child s) (_dialog s) (Some dialog) (_shouldClose s),
   [ShouldLayout; Animate 1]).

Definition close (s : t) : t * list effect :=
  match _dialog s with
  | Some _ =>
      (mk (_child s) (_dialog s) (_shouldShow s) true,
       [ShouldLayout; Animate 0])
  | None => (s, [])
  end.

Definition event (e : Event) (s : t) : t * list effect :=
  (s, AnimEvent e ::
      (match _dialog s with
       | Some d => [NodeEvent d e]
       | None => [NodeEvent (_child s) e]
       end)).

(** The first step of [layout]: a pending close detaches the dialog.  The
    source dereferences [_dialog] without a test. *)
Definition layout_close (s : t) : option (t * list effect) :=
  if _shouldClose s then
    match _dialog s with
    | Some d => Some (mk (_child s) None (_shouldShow s) false, [Detach d])
    | None => None
    end
  else Some (s, []).

(** The second step: a pending show replaces the dialog. *)
Definition layout_show (s : t) : t * list effect :=
  match _shouldShow s with
  | Some n =>
      (mk (_child s) (Some n) None (_shouldClose s),
       (match _dialog s with
        | Some d => [Detach d]
        | None => []
        end) ++ [Attach n])
  | None => (s, [])
  end.

Definition layout (r : Rect) (s : t) : option (t * list effect) :=
  match layout_close s with
  | None => None
  | Some (s1, closed) =>
      let (s2, shown) := layout_show s1 in
      Some (s2,
            closed ++ shown ++
            NodeLayout (_child s2) r ::
            (match _dialog s2 with
             | Some d => [NodeLayout d r]
             | None => []
             end))
  end.

(** A call of one of the four methods that user code and the toolkit make
    on a layer, and the run of a sequence of calls. *)
Inductive call : Type :=
  | Show (dialog : Node)
  | Close
  | Layout (r : Rect)
  | Deliver (e : Event).

Definition step (c : call) (s : t) : option (t * list effect) :=
  match c with
  | Show d => Some (show d s)
  | Close => Some (close s)
  | Layout r => layout r s
  | Deliver e => Some (event e s)
  end.

Fixpoint run (calls : list call) (s : t) : option (t * list effect) :=
  match calls with
  | [] => Some (s, [])
  | c :: rest =>
      match step c s with
      | None => None
      | Some (s1, done) =>
          match run rest s1 with
          | None => None
          | Some (s2, more) => Some (s2, done ++ more)
          end
      end
  end.

(** Number of attach calls minus number of detach calls. *)
Fixpoint attached (effects : list effect) : Z :=
  match effects with
  | [] => 0
  | Attach _ :: rest => 1 + attached rest
  | Detach _ :: rest => attached rest - 1
  | _ :: rest => attached rest
  end.

(** The effect is an attach or a detach call. *)
Definition attaches (e : effect) : bool :=
  match e with
  | Attach _ | Detach _ => true
  | _ => false
  end.

(** A pending close always has a dialog to close. *)
Definition close_has_dialog (s : t) : Prop :=
  _shouldClose s = true -> _dialog s <> None.

End Model.

End DialogLayer.

(** * Widget sizing and placement (libwidget/Widget.c)

    A widget is the node of a tree: the list [childs] holds its children in
    order.  Only the members that the functions below read or write are
    kept.  [int] arithmetic is 32-bit; a sum, difference or product is
    reduced to the [int] range (two's complement).  A quotient truncates
    towards zero; the division instruction traps on a zero divisor and on
    [INT_MIN / -1], which is [None] here. *)

Module Widget.

Definition iadd (a b : Z) : Z := to_s32 (a + b).
Definition isub (a b : Z) : Z := to_s32 (a - b).
Definition imul (a b : Z) : Z := to_s32 (a * b).

(** The division [a / b] or [a % b] traps. *)
Definition traps (a b : Z) : bool :=
  (b =? 0) || ((a =? - half_modulus) && (b =? -1)).

Definition idiv (a b : Z) : option Z :=
  if traps a b then None else Some (to_s32 (Z.quot a b)).

Definition irem (a b : Z) : option Z :=
  if traps a b then None else Some (to_s32 (Z.rem a b)).

(** [MAX] and [MIN] of libmath/MinMax.h. *)
Definition MAX (a b : Z) : Z := if a >? b then a else b.
Definition MIN (a b : Z) : Z := if a <? b then a else b.

Record Vec2i : Type := vec2i { x : Z; y : Z }.

(** A rectangle is read both as [x, y, width, height] and as
    [position, size]. *)
Record Rectangle : Type := RECTANGLE { position : Vec2i; size : Vec2i }.

Definition width (r : Rectangle) : Z := x (size r).
Definition height (r : Rectangle) : Z := y (size r).

Record Insets : Type := mkInsets { top : Z; bottom : Z; left : Z; right : Z }.

Inductive Dimension : Type := DIM_X | DIM_Y.

(** [v.components[dim]] and the assignment to it. *)
Definition component (dim : Dimension) (v : Vec2i) : Z :=
  match dim with DIM_X => x v | DIM_Y => y v end.

Definition set_component (dim : Dimension) (v : Vec2i) (z : Z) : Vec2i :=
  match dim with
  | DIM_X => vec2i z (y v)
  | DIM_Y => vec2i (x v) z
  end.

(** The layout types the file names; [LAYOUT_OTHER] stands for any further
    enumerator, which the code sends to its [default] branches. *)
Inductive LayoutType : Type :=
  | LAYOUT_STACK | LAYOUT_GRID | LAYOUT_VGRID | LAYOUT_HGRID
  | LAYOUT_VFLOW | LAYOUT_HFLOW | LAYOUT_OTHER.

Record Layout : Type := mkLayout {
  type : LayoutType;
  hcell : Z;
  vcell : Z;
  spacing : Vec2i
}.

#[warnings="-register-all"]
Inductive Widget : Type :=
  mkWidget (klass : Z) (bound : Rectangle) (insets : Insets) (layout : Layout)
           (layout_attributes : Z)
           (max_width max_height min_width min_height : Z)
           (childs : list Widget).

Definition klass (w : Widget) : Z :=
  match w with mkWidget k _ _ _ _ _ _ _ _ _ => k end.
Definition bound (w : Widget) : Rectangle :=
  match w with mkWidget _ b _ _ _ _ _ _ _ _ => b end.
Definition insets (w : Widget) : Insets :=
  match w with mkWidget _ _ i _ _ _ _ _ _ _ => i end.
Definition layout (w : Widget) : Layout :=
  match w with mkWidget _ _ _ l _ _ _ _ _ _ => l end.
Definition layout_attributes (w : Widget) : Z :=
  match w with mkWidget _ _ _ _ a _ _ _ _ _ => a end.
Definition max_width (w : Widget) : Z :=
  match w with mkWidget _ _ _ _ _ m _ _ _ _ => m end.
Definition max_height (w : Widget) : Z :=
  match w with mkWidget _ _ _ _ _ _ m _ _ _ => m end.
Definition min_width (w : Widget) : Z :=
  match w with mkWidget _ _ _ _ _ _ _ m _ _ => m end.
Definition min_height (w : Widget) : Z :=
  match w with mkWidget _ _ _ _ _ _ _ _ m _ => m end.
Definition childs (w : Widget) : list Widget :=
  match w with mkWidget _ _ _ _ _ _ _ _ _ c => c end.

(** [widget->bound = b] *)
Definition set_bound (w : Widget) (b : Rectangle) : Widget :=
  match w with
  | mkWidget k _ i l a xw xh nw nh c => mkWidget k b i l a xw xh nw nh c
  end.

Section Model.

(** What the file takes from elsewhere: for each widget class, the [size]
    member of its [WidgetClass] (a null pointer is [None]);
    [rectangle_shrink], [rectangle_containe_point] and
    [dimension_invert_xy] of the geometry headers. *)
Variable klass_size : Z -> option (Widget -> Vec2i).
Variable rectangle_shrink : Rectangle -> Insets -> Rectangle.
Variable rectangle_containe_point : Rectangle -> Vec2i -> bool.
Variable dimension_invert_xy : Dimension -> Dimension.

(** Further: for each widget class the [layout] member of its
    [WidgetClass], which works on the widget in place, and the bit
    [LAYOUT_FILL] of the layout attributes. *)
Variable klass_layout : Z -> option (Widget -> Widget).
Variable LAYOUT_FILL : Z.

Definition widget_get_bound (widget : Widget) : Rectangle := bound widget.

Definition widget_get_content_bound (widget : Widget) : Rectangle :=
  rectangle_shrink (widget_get_bound widget) (insets widget).

(** The accumulation over the children in [widget_compute_size], one step
    per child size, for the layout types other than [LAYOUT_STACK]. *)
Definition accumulate (t : LayoutType) (acc : Z * Z) (child_size : Vec2i) : Z * Z :=
  match t with
  | LAYOUT_HFLOW | LAYOUT_HGRID =>
      (iadd (fst acc) (x child_size), MAX (snd acc) (y child_size))
  | LAYOUT_VFLOW | LAYOUT_VGRID =>
      (MAX (fst acc) (x child_size), iadd (snd acc) (y child_size))
  | _ =>
      (MAX (fst acc) (x child_size), MAX (snd acc) (y child_size))
  end.

Definition horizontal (t : LayoutType) : bool :=
  match t with LAYOUT_HFLOW | LAYOUT_HGRID => true | _ => false end.

Definition vertical (t : LayoutType) : bool :=
  match t with LAYOUT_VFLOW | LAYOUT_VGRID => true | _ => false end.

(** The part of [widget_compute_size] after the children's sizes are
    known. *)
Definition size_from_children (widget : Widget) (sizes : list Vec2i) : Vec2i :=
  let t := type (layout widget) in
  let count := Z.of_nat (List.length sizes) in
  let '(width0, height0) :=
    match t with
    | LAYOUT_STACK =>
        fold_left (fun acc s => (MAX (fst acc) (x s), MAX (snd acc) (y s)))
                  sizes (width (bound widget), height (bound widget))
    | _ =>
        let '(w, h) := fold_left (accumulate t) sizes (0, 0) in
        let w := if horizontal t
                 then iadd w (imul (x (spacing (layout widget))) (isub count 1))
                 else w in
        let h := if vertical t
                 then iadd h (imul (y (spacing (layout widget))) (isub count 1))
                 else h in
        (w, h)
    end in
  let width1 := iadd (iadd width0 (left (insets widget))) (right (insets widget)) in
  let height1 := iadd (iadd height0 (top (insets widget))) (bottom (insets widget)) in
  let width2 := if max_width widget =? 0 then width1
                else MIN width1 (max_width widget) in
  let height2 := if max_height widget =? 0 then height1
                 else MIN height1 (max_height widget) in
  let width3 := if min_width widget =? 0 then width2
                else MAX width2 (min_width widget) in
  let height3 := if min_height widget =? 0 then height2
                 else MAX height2 (min_height widget) in
  vec2i width3 height3.

Fixpoint widget_compute_size (widget : Widget) : Vec2i :=
  match klass_size (klass widget) with
  | Some size_hook => size_hook widget
  | None =>
      match widget with
      | mkWidget _ _ _ _ _ _ _ _ _ children =>
          size_from_children widget (map widget_compute_size children)
      end
  end.

(** The loop of [widget_do_vhgrid_layout] over the children. *)
Fixpoint vhgrid_place (content : Rectangle) (spacing_dim : Z)
         (dim ivdim : Dimension) (child_size correction current : Z)
         (children : list Widget) : list Widget :=
  match children with
  | [] => []
  | child :: rest =>
      let current_child_size := MAX 1 child_size in
      let grows := correction >? 0 in
      let current_child_size :=
        if grows then iadd current_child_size 1 else current_child_size in
      let correction := if grows then isub correction 1 else correction in
      let b := bound child in
      let b := RECTANGLE (set_component dim (position b) current) (size b) in
      let b := RECTANGLE (set_component ivdim (position b)
                            (component ivdim (position content))) (size b) in
      let b := RECTANGLE (position b)
                         (set_component dim (size b) current_child_size) in
      let b := RECTANGLE (position b)
                         (set_component ivdim (size b)
                            (component ivdim (size content))) in
      set_bound child b ::
      vhgrid_place content spacing_dim dim ivdim child_size correction
        (iadd current (iadd current_child_size spacing_dim)) rest
  end.

(** [widget_do_vhgrid_layout]: the children with their new bounds, [None]
    when the division by the child count traps. *)
Definition widget_do_vhgrid_layout (widget : Widget) (layout : Layout)
           (dim : Dimension) : option (list Widget) :=
  let ivdim := dimension_invert_xy dim in
  let content := widget_get_content_bound widget in
  let count := Z.of_nat (List.length (childs widget)) in
  let gaps := imul (component dim (spacing layout)) (isub count 1) in
  let current := component dim (position content) in
  let used_space_without_spacing := isub (component dim (size content)) gaps in
  match idiv used_space_without_spacing count with
  | None => None
  | Some child_size =>
      let used_space_with_spacing := iadd (imul child_size count) gaps in
      let correction_space :=
        isub (component dim (size content)) used_space_with_spacing in
      Some (vhgrid_place content (component dim (spacing layout)) dim ivdim
              child_size correction_space current (childs widget))
  end.

(** ** [widget_layout] *)

(** [RECTANGLE(x, y, width, height)] *)
Definition RECT (x y width height : Z) : Rectangle :=
  RECTANGLE (vec2i x y) (vec2i width height).

(** [child->layout_attributes & LAYOUT_FILL] *)
Definition fills (child : Widget) : bool :=
  negb (Z.land (layout_attributes child) LAYOUT_FILL =? 0).

(** The loop of the [LAYOUT_GRID] case. *)
Fixpoint grid_place (originX originY child_width child_height : Z)
         (spacing : Vec2i) (hcell index : Z) (children : list Widget)
  : option (list Rectangle) :=
  match children with
  | [] => Some []
  | _ :: rest =>
      match irem index hcell, idiv index hcell with
      | Some column, Some row =>
          option_map
            (cons (RECT (iadd originX (imul column (iadd child_width (x spacing))))
                        (iadd originY (imul row (iadd child_height (y spacing))))
                        child_width child_height))
            (grid_place originX originY child_width child_height spacing hcell
               (iadd index 1) rest)
      | _, _ => None
      end
  end.

(** The first loop of the [LAYOUT_HFLOW] case: the number of fixed
    children, the sum of their computed widths, the number of fill
    children. *)
Definition hflow_count (acc : Z * Z * Z) (child : Widget) : Z * Z * Z :=
  let '(fixed_child_count, fixed_child_total_width, fill_child_count) := acc in
  if fills child then
    (fixed_child_count, fixed_child_total_width, iadd fill_child_count 1)
  else
    (iadd fixed_child_count 1,
     iadd fixed_child_total_width (x (widget_compute_size child)),
     fill_child_count).

(** The second loop of the [LAYOUT_HFLOW] case.  For a fixed child
    [widget_compute_size] is called twice: for the width of the new bound,
    and again, once the bound is assigned, for the advance of [current]. *)
Fixpoint hflow_place (content : Rectangle) (spacing_x fill_child_width current : Z)
         (children : list Widget) : list Rectangle :=
  match children with
  | [] => []
  | child :: rest =>
      if fills child then
        RECT current (y (position content)) fill_child_width (height content) ::
        hflow_place content spacing_x fill_child_width
          (iadd current (iadd fill_child_width spacing_x)) rest
      else
        let b := RECT current (y (position content))
                      (x (widget_compute_size child)) (height content) in
        let child := set_bound child b in
        b ::
        hflow_place content spacing_x fill_child_width
          (iadd current (iadd (x (widget_compute_size child)) spacing_x)) rest
  end.

(** The two loops of the [LAYOUT_VFLOW] case. *)
Definition vflow_count (acc : Z * Z * Z) (child : Widget) : Z * Z * Z :=
  let '(fixed_child_count, fixed_child_total_height, fill_child_count) := acc in
  if fills child then
    (fixed_child_count, fixed_child_total_height, iadd fill_child_count 1)
  else
    (iadd fixed_child_count 1,
     iadd fixed_child_total_height (y (widget_compute_size child)),
     fill_child_count).

Fixpoint vflow_place (content : Rectangle) (spacing_y fill_child_height current : Z)
         (children : list Widget) : list Rectangle :=
  match children with
  | [] => []
  | child :: rest =>
      if fills child then
        RECT (x (position content)) current (width content) fill_child_height ::
        vflow_place content spacing_y fill_child_height
          (iadd current (iadd fill_child_height spacing_y)) rest
      else
        let b := RECT (x (position content)) current (width content)
                      (y (widget_compute_size child)) in
        let child := set_bound child b in
        b ::
        vflow_place content spacing_y fill_child_height
          (iadd current (iadd (y (widget_compute_size child)) spacing_y)) rest
  end.

(** The [switch] of [widget_layout]: the new bounds of the children, in
    order; [None] when a division traps. *)
Definition place_children (widget : Widget) : option (list Rectangle) :=
  let layout := layout widget in
  let content := widget_get_content_bound widget in
  let count := Z.of_nat (List.length (childs widget)) in
  match type layout with
  | LAYOUT_STACK => Some (map (fun _ => content) (childs widget))
  | LAYOUT_GRID =>
      match idiv (isub (width content)
                       (imul (x (spacing layout)) (isub (hcell layout) 1)))
                 (hcell layout),
            idiv (isub (height content)
                       (imul (y (spacing layout)) (isub (vcell layout) 1)))
                 (vcell layout) with
      | Some child_width, Some child_height =>
          grid_place (x (position content)) (y (position content))
            child_width child_height (spacing layout) (hcell layout) 0
            (childs widget)
      | _, _ => None
      end
  | LAYOUT_HGRID =>
      option_map (map bound) (widget_do_vhgrid_layout widget layout DIM_X)
  | LAYOUT_VGRID =>
      option_map (map bound) (widget_do_vhgrid_layout widget layout DIM_Y)
  | LAYOUT_HFLOW =>
      let '(_, fixed_child_total_width, fill_child_count) :=
        fold_left hflow_count (childs widget) (0, 0, 0) in
      let usable_space :=
        isub (width content) (imul (x (spacing layout)) (isub count 1)) in
      let fill_child_total_width :=
        MAX 0 (isub usable_space fixed_child_total_width) in
      match idiv fill_child_total_width (MAX 1 fill_child_count) with
      | Some fill_child_width =>
          Some (hflow_place content (x (spacing layout)) fill_child_width
                  (x (position content)) (childs widget))
      | None => None
      end
  | LAYOUT_VFLOW =>
      let '(_, fixed_child_total_height, fill_child_count) :=
        fold_left vflow_count (childs widget) (0, 0, 0) in
      let usable_space :=
        isub (height content) (imul (y (spacing layout)) (isub count 1)) in
      let fill_child_total_height :=
        MAX 0 (isub usable_space fixed_child_total_height) in
      match idiv fill_child_total_height (MAX 1 fill_child_count) with
      | Some fill_child_height =>
          Some (vflow_place content (y (spacing layout)) fill_child_height
                  (y (position content)) (childs widget))
      | None => None
      end
  | LAYOUT_OTHER => Some (map bound (childs widget))
  end.

(** [widget_layout] of the widget [w] once its bound is [b].  The source
    assigns each child's bound and then lays the child out in place; here
    the new bound is handed down, so that the recursion is on the children
    of the tree.  [None] stands for a division that traps. *)
Fixpoint layout_in (b : Rectangle) (w : Widget) : option Widget :=
  match w with
  | mkWidget k _ i l a xw xh nw nh children =>
      let widget := mkWidget k b i l a xw xh nw nh children in
      match klass_layout k with
      | Some layout_hook => Some (layout_hook widget)
      | None =>
          match children with
          | [] => Some widget
          | _ :: _ =>
              match place_children widget with
              | None => None
              | Some bounds =>
                  option_map (mkWidget k b i l a xw xh nw nh)
                    ((fix each (cs : list Widget) (bs : list Rectangle)
                        : option (list Widget) :=
                        match cs, bs with
                        | child :: cs', b' :: bs' =>
                            match layout_in b' child, each cs' bs' with
                            | Some child', Some rest => Some (child' :: rest)
                            | _, _ => None
                            end
                        | _, _ => Some []
                        end) children bounds)
              end
          end
      end
  end.

Definition widget_layout (widget : Widget) : option Widget :=
  layout_in (bound widget) widget.

(** [widget_get_child_at]: the search among the children is the inner
    loop. *)
Fixpoint widget_get_child_at (parent : Widget) (at_position : Vec2i) : Widget :=
  match parent with
  | mkWidget _ _ _ _ _ _ _ _ _ children =>
      (fix first_hit (l : list Widget) : Widget :=
         match l with
         | [] => parent
         | child :: rest =>
             if rectangle_containe_point (widget_get_bound child) at_position
             then widget_get_child_at child at_position
             else first_hit rest
         end) children
  end.

(** ** Vocabulary of the statements *)

(** The children tile the stretch from [start] to [stop] along [dim]: the
    first begins at [start], each next one begins [gap] after the end of
    the one before, the last ends at [stop], and each is at least one unit
    long. *)
Fixpoint tiles (dim : Dimension) (gap start stop : Z) (children : list Widget)
  : Prop :=
  match children with
  | [] => False
  | child :: rest =>
      component dim (position (bound child)) = start
      /\ 1 <= component dim (size (bound child))
      /\ match rest with
         | [] => start + component dim (size (bound child)) = stop
         | _ => tiles dim gap (start + component dim (size (bound child)) + gap)
                      stop rest
         end
  end.

(** The widget tree with every bound replaced by an empty rectangle at the
    origin: what is left is everything in the tree that is not a bound. *)
Fixpoint without_bounds (w : Widget) : Widget :=
  match w with
  | mkWidget k _ i l a xw xh nw nh children =>
      mkWidget k (RECT 0 0 0 0) i l a xw xh nw nh (map without_bounds children)
  end.

(** The rectangles follow one another from [start] to [stop] along x, each
    beginning [gap] after the end of the one before. *)
Fixpoint chained (gap start stop : Z) (bounds : list Rectangle) : Prop :=
  match bounds with
  | [] => False
  | b :: rest =>
      x (position b) = start
      /\ match rest with
         | [] => start + width b = stop
         | _ => chained gap (start + width b + gap) stop rest
         end
  end.

(** Sum of the computed widths of the children that do not fill, and
    number of the children that fill. *)
Definition fixed_width (children : list Widget) : Z :=
  fold_right (fun c total =>
                if fills c then total else x (widget_compute_size c) + total)
             0 children.

Definition fill_count (children : list Widget) : Z :=
  Z.of_nat (List.length (filter fills children)).

(** The computed width of [child] is the same once the child's bound has
    that width.  It is so for a child whose size does not depend on its
    bound; for a [LAYOUT_STACK] child, whose size starts from its bound, it
    is so when the insets and the constraints add nothing. *)
Definition stable_width (child : Widget) : Prop :=
  forall b,
    width b = x (widget_compute_size child) ->
    x (widget_compute_size (set_bound child b)) = x (widget_compute_size child).

(** [w] is [root] or a descendant of [root] reached through widgets whose
    bounds all contain [p]. *)
Inductive found_under (p : Vec2i) (root : Widget) : Widget -> Prop :=
  | found_here : found_under p root root
  | found_below child w :
      In child (childs root) ->
      rectangle_containe_point (widget_get_bound child) p = true ->
      found_under p child w ->
      found_under p root w.

End Model.

End Widget.

(** ** Sample instances for the toolkit models

    Used to run the definitions on concrete inputs: a widget class table
    without size functions, a shrink that moves each edge inwards by its
    inset, the exchange of the two dimensions, and a small horizontal grid
    of three children in a content area 10 units wide. *)

Definition no_size_hook : Z -> option (Widget.Widget -> Widget.Vec2i) :=
  fun _ => None.

Definition sample_shrink (r : Widget.Rectangle) (i : Widget.Insets)
  : Widget.Rectangle :=
  Widget.RECTANGLE
    (Widget.vec2i (Widget.x (Widget.position r) + Widget.left i)
                  (Widget.y (Widget.position r) + Widget.top i))
    (Widget.vec2i (Widget.x (Widget.size r) - Widget.left i - Widget.right i)
                  (Widget.y (Widget.size r) - Widget.top i - Widget.bottom i)).

Definition sample_invert (d : Widget.Dimension) : Widget.Dimension :=
  match d with
  | Widget.DIM_X => Widget.DIM_Y
  | Widget.DIM_Y => Widget.DIM_X
  end.

Definition sample_leaf : Widget.Widget :=
  Widget.mkWidget 0
    (Widget.RECTANGLE (Widget.vec2i 0 0) (Widget.vec2i 32 32))
    (Widget.mkInsets 0 0 0 0)
    (Widget.mkLayout Widget.LAYOUT_STACK 0 0 (Widget.vec2i 0 0))
    0 0 0 0 0 [].

Definition sample_row : Widget.Widget :=
  Widget.mkWidget 0
    (Widget.RECTANGLE (Widget.vec2i 0 0) (Widget.vec2i 14 9))
    (Widget.mkInsets 1 1 2 2)
    (Widget.mkLayout Widget.LAYOUT_HGRID 0 0 (Widget.vec2i 1 0))
    0 12 0 20 0
    [sample_leaf; sample_leaf; sample_leaf].

Definition sample_empty_flow : Widget.Widget :=
  Widget.mkWidget 0
    (Widget.RECTANGLE (Widget.vec2i 0 0) (Widget.vec2i 32 32))
    (Widget.mkInsets 0 0 1 1)
    (Widget.mkLayout Widget.LAYOUT_HFLOW 0 0 (Widget.vec2i 8 8))
    0 0 0 0 0 [].

Definition no_layout_hook : Z -> option (Widget.Widget -> Widget.Widget) :=
  fun _ => None.

(** The fill bit of the sample runs. *)
Definition sample_fill_bit : Z := 1.

Definition sample_fixed : Widget.Widget :=
  Widget.mkWidget 0
    (Widget.RECTANGLE (Widget.vec2i 0 0) (Widget.vec2i 3 3))
    (Widget.mkInsets 0 0 0 0)
    (Widget.mkLayout Widget.LAYOUT_STACK 0 0 (Widget.vec2i 0 0))
    0 0 0 0 0 [].

Definition sample_filler : Widget.Widget :=
  Widget.mkWidget 0
    (Widget.RECTANGLE (Widget.vec2i 0 0) (Widget.vec2i 3 3))
    (Widget.mkInsets 0 0 0 0)
    (Widget.mkLayout Widget.LAYOUT_STACK 0 0 (Widget.vec2i 0 0))
    1 0 0 0 0 [].

(** A horizontal flow of a fill child, a fixed child and a fill child in a
    content area 10 units wide, and a stack of the same children. *)
Definition sample_flow : Widget.Widget :=
  Widget.mkWidget 0
    (Widget.RECTANGLE (Widget.vec2i 0 0) (Widget.vec2i 14 9))
    (Widget.mkInsets 1 1 2 2)
    (Widget.mkLayout Widget.LAYOUT_HFLOW 0 0 (Widget.vec2i 1 0))
    0 0 0 0 0
    [sample_filler; sample_fixed; sample_filler].

Definition sample_stack : Widget.Widget :=
  Widget.mkWidget 0
    (Widget.RECTANGLE (Widget.vec2i 0 0) (Widget.vec2i 14 9))
    (Widget.mkInsets 1 1 2 2)
    (Widget.mkLayout Widget.LAYOUT_STACK 0 0 (Widget.vec2i 0 0))
    0 0 0 0 0
    [sample_filler; sample_fixed].

Definition sample_layout (w : Widget.Widget) : option Widget.Widget :=
  Widget.widget_layout no_size_hook sample_shrink sample_invert no_layout_hook
    sample_fill_bit w.

Definition sample_flow_laid_out : Widget.Widget :=
  Eval vm_compute in
    match sample_layout sample_flow with
    | Some w => w
    | None => sample_flow
    end.

Definition sample_stack_laid_out : Widget.Widget :=
  Eval vm_compute in
    match sample_layout sample_stack with
    | Some w => w
    | None => sample_stack
    end.

(** A fixed stack child with horizontal insets of 2 and 2, and a flow 40
    units wide of that child and a fill child. *)
Definition sample_padded : Widget.Widget :=
  Widget.mkWidget 0
    (Widget.RECTANGLE (Widget.vec2i 0 0) (Widget.vec2i 3 3))
    (Widget.mkInsets 0 0 2 2)
    (Widget.mkLayout Widget.LAYOUT_STACK 0 0 (Widget.vec2i 0 0))
    0 0 0 0 0 [].

Definition sample_padded_flow : Widget.Widget :=
  Widget.mkWidget 0
    (Widget.RECTANGLE (Widget.vec2i 0 0) (Widget.vec2i 40 9))
    (Widget.mkInsets 0 0 0 0)
    (Widget.mkLayout Widget.LAYOUT_HFLOW 0 0 (Widget.vec2i 1 0))
    0 0 0 0 0
    [sample_padded; sample_filler].

(** ** Properties of the validator *)

Lemma modulus_eq : modulus = 4294967296.
Proof. reflexivity. Qed.

Lemma half_modulus_eq : half_modulus = 2147483648.
Proof. reflexivity. Qed.

Lemma to_u32_small z : is_word z -> to_u32 z = z.
Proof. unfold is_word, to_u32. intros H. apply Z.mod_small. exact H. Qed.

Lemma to_u32_range z : is_word (to_u32 z).
Proof.
  unfold is_word, to_u32. apply Z.mod_pos_bound. rewrite modulus_eq. lia.
Qed.

(** The wrapped sum of two words, by cases on the carry. *)
Lemma to_u32_add ptr size :
  is_word ptr -> is_word size ->
  (ptr + size < modulus /\ to_u32 (ptr + size) = ptr + size) \/
  (modulus <= ptr + size /\ to_u32 (ptr + size) = ptr + size - modulus).
Proof.
  unfold is_word, to_u32. intros Hp Hs.
  destruct (Z_lt_le_dec (ptr + size) modulus) as [Hlt | Hge].
  - left. split; [exact Hlt |]. apply Z.mod_small. lia.
  - right. split; [exact Hge |].
    replace (ptr + size) with ((ptr + size - modulus) + 1 * modulus) by ring.
    rewrite Z.mod_add by (rewrite modulus_eq; lia).
    rewrite Z.mod_small by lia. ring.
Qed.

Lemma validate_ptr_true_iff ptr size :
  is_word ptr -> is_word size ->
  syscall_validate_ptr ptr size = true <->
  0x100000 <= ptr /\ ptr + size < modulus /\ 0x100000 <= ptr + size.
Proof.
  intros Hp Hs. unfold syscall_validate_ptr.
  rewrite !andb_true_iff, !Z.geb_le.
  destruct (to_u32_add ptr size Hp Hs) as [[Hlt ->] | [Hge ->]];
    unfold is_word in *; rewrite modulus_eq in *; lia.
Qed.

(** C1 (as amended).  For machine words [base] and [length] the validator
    accepts exactly when [base] is at or above the watermark 0x100000, the sum
    [base + length] does not wrap around 32 bits, and the sum is at or above
    the watermark.  At [base = 0x100000] it accepts exactly the lengths with
    [0x100000 + length < 2^32]; at [base = 0x100000 - 1] it rejects every
    length. *)
Theorem validate_ptr_characterisation (base length : Z) :
  is_word base -> is_word length ->
  (syscall_validate_ptr base length = true <->
     0x100000 <= base /\ base + length < modulus /\ 0x100000 <= base + length)
  /\ (syscall_validate_ptr 0x100000 length = true <->
        0x100000 + length < modulus)
  /\ syscall_validate_ptr (0x100000 - 1) length = false.
Proof.
  intros Hb Hl. split; [| split].
  - apply validate_ptr_true_iff; assumption.
  - rewrite validate_ptr_true_iff; [| unfold is_word; rewrite modulus_eq; lia | exact Hl].
    unfold is_word in Hl. lia.
  - destruct (syscall_validate_ptr (0x100000 - 1) length) eqn:E; [| reflexivity].
    apply validate_ptr_true_iff in E;
      [lia | unfold is_word; rewrite modulus_eq; lia | exact Hl].
Qed.

(** C9.  The validator is monotone in the length: a range accepted with size
    [t] is accepted with every smaller size [s]; and every empty range whose
    base is at or above 0x100000 is accepted. *)
Theorem validate_ptr_monotone (ptr s t : Z) :
  is_word ptr -> is_word s -> is_word t -> s <= t ->
  (syscall_validate_ptr ptr t = true -> syscall_validate_ptr ptr s = true)
  /\ (0x100000 <= ptr -> syscall_validate_ptr ptr 0 = true).
Proof.
  intros Hp Hs Ht Hst. split.
  - intros H. apply validate_ptr_true_iff in H; [| assumption | assumption].
    apply validate_ptr_true_iff; [assumption | assumption |].
    unfold is_word in *. lia.
  - intros Hw. apply validate_ptr_true_iff;
      [assumption | unfold is_word; rewrite modulus_eq; lia |].
    unfold is_word in Hp. lia.
Qed.

(** C1, the statement as written fails: the range of base 0x100000 and
    length 0xFFF00000 ends at 2^32, which wraps to 0, and is rejected. *)
Lemma validate_ptr_watermark_rejected :
  is_word 0x100000 /\ is_word 0xFFF00000 /\
  syscall_validate_ptr 0x100000 0xFFF00000 = false.
Proof.
  unfold is_word. rewrite modulus_eq. repeat split; try lia; reflexivity.
Qed.

Lemma validate_ptr_characterisation_witness :
  (syscall_validate_ptr 0x200000 16 = true <->
     0x100000 <= 0x200000 /\ 0x200000 + 16 < modulus /\ 0x100000 <= 0x200000 + 16)
  /\ (syscall_validate_ptr 0x100000 16 = true <-> 0x100000 + 16 < modulus)
  /\ syscall_validate_ptr (0x100000 - 1) 16 = false.
Proof.
  apply (validate_ptr_characterisation 0x200000 16);
    unfold is_word; rewrite modulus_eq; lia.
Defined.

Lemma validate_ptr_monotone_witness :
  (syscall_validate_ptr 0x200000 64 = true -> syscall_validate_ptr 0x200000 8 = true)
  /\ (0x100000 <= 0x200000 -> syscall_validate_ptr 0x200000 0 = true).
Proof.
  apply (validate_ptr_monotone 0x200000 8 64);
    unfold is_word; try rewrite modulus_eq; lia.
Defined.

(** ** Properties of the handlers *)

Section HandlerProperties.

Context {K : Type} {kern : Kernel K} {abi : Abi}.

Lemma to_s32_to_u32 z : is_int z -> to_s32 (to_u32 z) = z.
Proof.
  unfold is_int, to_s32, to_u32. rewrite half_modulus_eq, modulus_eq. intros H.
  rewrite Z.mod_mod by lia.
  destruct (Z_lt_le_dec z 0) as [Hneg | Hpos].
  - replace (z mod 4294967296) with (z + 4294967296).
    + destruct (Z.ltb_spec (z + 4294967296) 2147483648); lia.
    + apply Z.mod_unique with (q := -1); lia.
  - rewrite Z.mod_small by lia.
    destruct (Z.ltb_spec z 2147483648); lia.
Qed.

Lemma validate_ptr_below_watermark ptr size :
  ptr < 0x100000 -> syscall_validate_ptr ptr size = false.
Proof.
  intros H. unfold syscall_validate_ptr.
  destruct (Z.geb_spec ptr 0x100000) as [Hge | Hlt]; [lia | reflexivity].
Qed.

(** C5.  When the launchpad pointer fails validation (as every pointer below
    the watermark does), [sys_process_launch] returns [-ERR_BAD_ADDRESS] and
    leaves the kernel world as it found it: [task_launch] is not called and
    the state of the task table is untouched. *)
Theorem launch_bad_address (launchpad : Z) (w : world K) :
  syscall_validate_ptr launchpad sizeof_Launchpad = false \/ launchpad < 0x100000 ->
  runState (sys_process_launch launchpad) w = (- ERR_BAD_ADDRESS, w).
Proof.
  intros H.
  assert (Hv : syscall_validate_ptr launchpad sizeof_Launchpad = false).
  { destruct H as [H | H]; [exact H | now apply validate_ptr_below_watermark]. }
  unfold sys_process_launch. rewrite Hv. reflexivity.
Qed.

(** When the launchpad pointer passes, the handler forwards to [task_launch]
    on the running task. *)
Lemma launch_valid (launchpad : Z) (w : world K) :
  syscall_validate_ptr launchpad sizeof_Launchpad = true ->
  exists t, trace (snd (runState (sys_process_launch launchpad) w)) =
            trace w ++ [EvCall sheduler_running []; EvCall task_launch [W t; W launchpad]].
Proof.
  intros Hv. unfold sys_process_launch. rewrite Hv. simpl.
  eexists. rewrite <- app_assoc. reflexivity.
Qed.

(** [sys_handle_select] makes three checks: the handles pointer with the
    product [sizeof(int) * count] reduced to [size_t], the events pointer
    with [sizeof(SelectEvent) * count] reduced alike, and the [selected]
    pointer with [sizeof(int)].  When one of them fails it returns
    [ERR_BAD_ADDRESS] and the kernel world is unchanged. *)
Lemma select_bad_address (handles events count selected : Z) (w : world K) :
  syscall_validate_ptr handles (to_u32 (sizeof_int * count)) = false \/
  syscall_validate_ptr events (to_u32 (sizeof_SelectEvent * count)) = false \/
  syscall_validate_ptr selected sizeof_int = false ->
  runState (sys_handle_select handles events count selected) w = (ERR_BAD_ADDRESS, w).
Proof.
  intros H. unfold sys_handle_select.
  destruct (syscall_validate_ptr handles _) eqn:E1; [| reflexivity].
  destruct (syscall_validate_ptr events _) eqn:E2; [| reflexivity].
  destruct (syscall_validate_ptr selected _) eqn:E3; [| reflexivity].
  destruct H as [H | [H | H]]; discriminate H.
Qed.

(** Only when all three checks pass is the select of the task layer
    reached, and it is the first thing done after fetching the running
    task. *)
Lemma select_valid (handles events count selected : Z) (w : world K) :
  syscall_validate_ptr handles (to_u32 (sizeof_int * count)) = true ->
  syscall_validate_ptr events (to_u32 (sizeof_SelectEvent * count)) = true ->
  syscall_validate_ptr selected sizeof_int = true ->
  exists t,
    trace (snd (runState (sys_handle_select handles events count selected) w)) =
    trace w ++ [EvCall sheduler_running [];
                EvCall task_fshandle_select
                  [W t; W handles; W events; W count; W selected]].
Proof.
  intros E1 E2 E3. unfold sys_handle_select. rewrite E1, E2, E3. simpl.
  eexists. rewrite <- app_assoc. reflexivity.
Qed.

(** The byte counts of the two arrays are the plain products as long as
    these fit 32 bits. *)
Lemma select_length_exact (size count : Z) :
  0 <= size -> 0 <= count -> size * count < modulus ->
  to_u32 (size * count) = size * count.
Proof.
  intros Hs Hc Hlt. apply to_u32_small. unfold is_word. nia.
Qed.

(** C6, what the code does.  The lengths handed to the validator are the
    products reduced to [size_t], not the byte counts of the arrays.  When
    [sizeof(int) * count] is 2^32 or more, the array of [count] handles is
    not a range the validator's policy allows, wherever it starts; yet when
    the reduced lengths pass the checks, the handler goes on to the select
    of the task layer and hands it the full [count]. *)
Theorem select_unchecked_length (handles events count selected : Z) (w : world K) :
  is_word handles ->
  modulus <= sizeof_int * count ->
  syscall_validate_ptr handles (to_u32 (sizeof_int * count)) = true ->
  syscall_validate_ptr events (to_u32 (sizeof_SelectEvent * count)) = true ->
  syscall_validate_ptr selected sizeof_int = true ->
  ~ range_allowed handles (sizeof_int * count)
  /\ to_u32 (sizeof_int * count) < sizeof_int * count
  /\ exists t,
       trace (snd (runState (sys_handle_select handles events count selected) w)) =
       trace w ++ [EvCall sheduler_running [];
                   EvCall task_fshandle_select
                     [W t; W handles; W events; W count; W selected]].
Proof.
  intros Hword Hbig E1 E2 E3. split; [| split].
  - unfold range_allowed, is_word in *. lia.
  - pose proof (to_u32_range (sizeof_int * count)) as Hr.
    unfold is_word in Hr. lia.
  - unfold sys_handle_select. rewrite E1, E2, E3. simpl.
    eexists. rewrite <- app_assoc. reflexivity.
Qed.

(** C4 (as amended).  On a pointer-validation failure [sys_process_launch]
    returns the negated code [-ERR_BAD_ADDRESS], which is negative, while
    the handle handlers that validate ([sys_handle_open], [sys_handle_select],
    [sys_handle_read], [sys_handle_write], [sys_handle_tell],
    [sys_handle_stat]) return the code [ERR_BAD_ADDRESS] itself, which is
    positive; none of them changes the kernel world. *)
Theorem bad_address_codes (w : world K) :
  0 < ERR_BAD_ADDRESS ->
  (forall launchpad,
      syscall_validate_ptr launchpad sizeof_Launchpad = false ->
      runState (sys_process_launch launchpad) w = (- ERR_BAD_ADDRESS, w))
  /\ (forall handle path flags,
      syscall_validate_ptr handle sizeof_int = false ->
      runState (sys_handle_open handle path flags) w = (ERR_BAD_ADDRESS, w))
  /\ (forall handles events count selected,
      syscall_validate_ptr handles (to_u32 (sizeof_int * count)) = false \/
      syscall_validate_ptr events (to_u32 (sizeof_SelectEvent * count)) = false \/
      syscall_validate_ptr selected sizeof_int = false ->
      runState (sys_handle_select handles events count selected) w =
      (ERR_BAD_ADDRESS, w))
  /\ (forall handle buffer size readed,
      syscall_validate_ptr buffer size = false \/
      syscall_validate_ptr readed sizeof_size_t = false ->
      runState (sys_handle_read handle buffer size readed) w =
      (ERR_BAD_ADDRESS, w))
  /\ (forall handle buffer size written,
      syscall_validate_ptr buffer size = false \/
      syscall_validate_ptr written sizeof_size_t = false ->
      runState (sys_handle_write handle buffer size written) w =
      (ERR_BAD_ADDRESS, w))
  /\ (forall handle whence offset,
      syscall_validate_ptr offset sizeof_int = false ->
      runState (sys_handle_tell handle whence offset) w = (ERR_BAD_ADDRESS, w))
  /\ (forall handle state,
      syscall_validate_ptr state sizeof_FileState = false ->
      runState (sys_handle_stat handle state) w = (ERR_BAD_ADDRESS, w))
  /\ - ERR_BAD_ADDRESS < 0 /\ ~ ERR_BAD_ADDRESS < 0.
Proof.
  intros Hpos. repeat split; try lia.
  - intros launchpad Hv. unfold sys_process_launch. rewrite Hv. reflexivity.
  - intros handle path flags Hv. unfold sys_handle_open. rewrite Hv. reflexivity.
  - intros handles events count selected Hv. unfold sys_handle_select.
    destruct (syscall_validate_ptr handles _); [| reflexivity].
    destruct (syscall_validate_ptr events _); [| reflexivity].
    destruct (syscall_validate_ptr selected _); [| reflexivity].
    destruct Hv as [Hv | [Hv | Hv]]; discriminate Hv.
  - intros handle buffer size readed Hv. unfold sys_handle_read.
    destruct (syscall_validate_ptr buffer size); [| reflexivity].
    destruct (syscall_validate_ptr readed sizeof_size_t); [| reflexivity].
    destruct Hv as [Hv | Hv]; discriminate Hv.
  - intros handle buffer size written Hv. unfold sys_handle_write.
    destruct (syscall_validate_ptr buffer size); [| reflexivity].
    destruct (syscall_validate_ptr written sizeof_size_t); [| reflexivity].
    destruct Hv as [Hv | Hv]; discriminate Hv.
  - intros handle whence offset Hv. unfold sys_handle_tell. rewrite Hv. reflexivity.
  - intros handle state Hv. unfold sys_handle_stat. rewrite Hv. reflexivity.
Qed.

(** Whatever the value of the code, the two conventions give opposite
    results on the same failure. *)
Lemma bad_address_codes_opposite (p : Z) (w : world K) :
  p < 0x100000 ->
  fst (runState (sys_process_launch p) w) +
  fst (runState (sys_handle_open p 0 0) w) = 0.
Proof.
  intros Hp. unfold sys_process_launch, sys_handle_open.
  rewrite !validate_ptr_below_watermark by exact Hp. simpl. lia.
Qed.

(** C7, what the code does.  [sys_process_free] drops the answer of
    [task_memory_free] and returns 0 for every address, every count and
    every behaviour of the memory component; the call it makes is the only
    thing it does. *)
Theorem free_reports_success (addr count : Z) (w : world K) :
  fst (runState (sys_process_free addr count) w) = 0
  /\ exists t,
       trace (snd (runState (sys_process_free addr count) w)) =
       trace w ++ [EvCall sheduler_running [];
                   EvCall task_memory_free [W t; W addr; W count]].
Proof.
  unfold sys_process_free. simpl. split; [reflexivity |].
  eexists. rewrite <- app_assoc. reflexivity.
Qed.

(** The sibling [sys_process_unmap] passes the answer of the memory
    component on. *)
Lemma unmap_reports_result (addr count : Z) (w : world K) :
  let running := kernel sheduler_running [] (kstate w) in
  fst (runState (sys_process_unmap addr count) w) =
  to_s32 (snd (kernel task_memory_unmap
                 [W (to_u32 (snd running)); W addr; W count] (fst running))).
Proof. reflexivity. Qed.

(** C3, what the code does.  The null pointer fails validation for every
    length, yet [sys_system_get_time] stores the clock through it,
    [sys_system_get_status] stores through it, and [sys_messaging_send] and
    [sys_handle_connect] hand it to the task layer; none of them answers
    with a bad-address code of its own. *)
Theorem unvalidated_pointer_use (w : world K) :
  (forall size, syscall_validate_ptr 0 size = false)
  /\ (exists now,
        trace (snd (runState (sys_system_get_time 0) w)) =
        trace w ++ [EvCall clock_now []; EvStore (W 0) now]
        /\ fst (runState (sys_system_get_time 0) w) = - ERR_SUCCESS)
  /\ (exists rest,
        trace (snd (runState (sys_system_get_status 0) w)) =
        trace w ++ EvStore (Fld 0 "uptime") 0 :: rest)
  /\ (exists t,
        trace (snd (runState (sys_messaging_send 0) w)) =
        trace w ++ [EvCall sheduler_running [];
                    EvCall task_messaging_send [W t; W 0]])
  /\ (forall path, exists t,
        trace (snd (runState (sys_handle_connect 0 path) w)) =
        trace w ++ [EvCall sheduler_running [];
                    EvCall task_fshandle_connect [W t; W 0; W path]]).
Proof.
  split; [| split; [| split; [| split]]].
  - intros size. apply validate_ptr_below_watermark. lia.
  - unfold sys_system_get_time. simpl. eexists. split; [| reflexivity].
    rewrite <- app_assoc. reflexivity.
  - unfold sys_system_get_status. simpl. eexists.
    rewrite <- !app_assoc. simpl. reflexivity.
  - unfold sys_messaging_send. simpl. eexists.
    rewrite <- app_assoc. reflexivity.
  - intros path. unfold sys_handle_connect. simpl. eexists.
    rewrite <- app_assoc. reflexivity.
Qed.

End HandlerProperties.

(** ** Properties of the dispatcher *)

Section DispatcherProperties.

Context {K : Type} {kern : Kernel K} {abi : Abi}.

Lemma run_bind {A B : Type} (m : state (world K) A) (f : A -> state (world K) B)
      (w : world K) :
  runState (bind m f) w = runState (f (fst (runState m w))) (snd (runState m w)).
Proof. cbn. destruct (runState m w). reflexivity. Qed.

Lemma add_trace_nil (w : world K) : add_trace w [] = w.
Proof. destruct w. unfold add_trace. cbn. rewrite app_nil_r. reflexivity. Qed.

Lemma syscall_names_in (syscall : Z) :
  in_enumeration syscall -> syscall_names syscall = Some syscall.
Proof.
  unfold in_enumeration, syscall_names. intros H.
  destruct (Z.geb_spec syscall 0); [| lia].
  destruct (Z.ltb_spec syscall SYSCALL_COUNT); [reflexivity | lia].
Qed.

Lemma syscall_names_out (syscall : Z) :
  ~ in_enumeration syscall -> syscall_names syscall = None.
Proof.
  unfold in_enumeration, syscall_names. intros H.
  destruct (Z.geb_spec syscall 0); [| reflexivity].
  destruct (Z.ltb_spec syscall SYSCALL_COUNT); [lia | reflexivity].
Qed.

Lemma failure_condition_iff (syscall result : Z) :
  failure_condition syscall result <->
  in_enumeration syscall /\ logging_test syscall result = true.
Proof.
  unfold failure_condition, logging_test.
  rewrite orb_true_iff, !andb_true_iff, negb_true_iff, Z.geb_le, !Z.ltb_lt,
    Z.eqb_neq.
  tauto.
Qed.

(** The two logging statements, run after the store: when one of the tests
    holds, the name is read and one line is written, or the read is outside
    the array; when none holds, nothing is done. *)
Lemma logging_tests (syscall : Z) (context : processor_context_t) (w : world K) :
  runState
    (named <-
       (if (syscall >=? enum_value SYS_HANDLE_OPEN) &&
           negb (eax context =? to_u32 ERR_SUCCESS) then
          log_returned syscall context (eax context)
        else ret true) ;;
     if negb named then ret (OutOfBounds context syscall)
     else
       named <-
         (if (syscall <? enum_value SYS_HANDLE_OPEN) &&
             (to_s32 (eax context) <? 0) then
            log_returned syscall context (to_u32 (- eax context))
          else ret true) ;;
       if negb named then ret (OutOfBounds context syscall)
       else ret (Returned context)) w
  = if logging_test syscall (eax context) then
      match syscall_names syscall with
      | Some name =>
          (Returned context,
           add_trace w
             [EvLog (LogReturned name (ebx context) (ecx context) (edx context)
                       (esi context) (edi context)
                       (logged_code syscall (eax context)))])
      | None => (OutOfBounds context syscall, w)
      end
    else (Returned context, w).
Proof.
  unfold logging_test, logged_code, log_returned.
  destruct (Z.geb_spec syscall (enum_value SYS_HANDLE_OPEN)) as [Hge | Hlt];
    destruct (Z.ltb_spec syscall (enum_value SYS_HANDLE_OPEN)) as [Hlt' | Hge'];
    try lia.
  - destruct (eax context =? to_u32 ERR_SUCCESS); cbn; [reflexivity |].
    destruct (syscall_names syscall); reflexivity.
  - destruct (to_s32 (eax context) <? 0); cbn; [| reflexivity].
    destruct (syscall_names syscall); reflexivity.
Qed.

(** The two branches that store the result. *)
Lemma run_handler_branch (syscall : Z) (context : processor_context_t)
      (handler : Z -> Z -> Z -> Z -> Z -> state (world K) Z) (w : world K) :
  runState
    (emit (EvInvoke syscall) ;;
     result <- handler (ebx context) (ecx context) (edx context)
                       (esi context) (edi context) ;;
     ret (set_eax context (to_u32 result))) w
  = (set_eax context
       (to_u32 (fst (runState (handler (ebx context) (ecx context) (edx context)
                                       (esi context) (edi context))
                              (add_trace w [EvInvoke syscall])))),
     snd (runState (handler (ebx context) (ecx context) (edx context)
                            (esi context) (edi context))
                   (add_trace w [EvInvoke syscall]))).
Proof.
  rewrite run_bind, run_bind. cbn [fst snd runState ret Monad_state emit].
  reflexivity.
Qed.

Lemma run_null_branch (context : processor_context_t) (w : world K) :
  runState
    (log (LogContext (ebx context) (ecx context) (edx context)
                     (esi context) (edi context)) ;;
     ret (set_eax context (to_u32 (- ERR_FUNCTION_NOT_IMPLEMENTED)))) w
  = (set_eax context (to_u32 (- ERR_FUNCTION_NOT_IMPLEMENTED)),
     add_trace w [EvLog (LogContext (ebx context) (ecx context) (edx context)
                                    (esi context) (edi context))]).
Proof. reflexivity. Qed.

(** The dispatcher is [stored_result] followed by the logging
    statements. *)
Lemma dispatcher_run (context : processor_context_t) (w : world K) :
  runState (syscall_dispatcher context) w =
  if logging_test (decode_syscall (eax context))
                  (eax (fst (stored_result context w))) then
    match syscall_names (decode_syscall (eax context)) with
    | Some name =>
        (Returned (fst (stored_result context w)),
         add_trace (snd (stored_result context w))
           [EvLog (LogReturned name (ebx context) (ecx context) (edx context)
                     (esi context) (edi context)
                     (logged_code (decode_syscall (eax context))
                                  (eax (fst (stored_result context w)))))])
    | None =>
        (OutOfBounds (fst (stored_result context w))
                     (decode_syscall (eax context)),
         snd (stored_result context w))
    end
  else (Returned (fst (stored_result context w)), snd (stored_result context w)).
Proof.
  unfold syscall_dispatcher, stored_result. cbv zeta. rewrite run_bind.
  destruct (fst (runState (syscall_get_handler _) w)) as [handler |].
  - rewrite run_bind, run_handler_branch. cbn [fst snd].
    set (ran := runState (handler _ _ _ _ _) _).
    apply (logging_tests (decode_syscall (eax context))
             (set_eax context (to_u32 (fst ran))) (snd ran)).
  - rewrite run_bind, run_null_branch. cbn [fst snd].
    set (w1 := add_trace _ _).
    apply (logging_tests (decode_syscall (eax context))
             (set_eax context (to_u32 (- ERR_FUNCTION_NOT_IMPLEMENTED))) w1).
Qed.

(** The context at the store is the incoming one with [eax] replaced. *)
Lemma stored_result_frame (context : processor_context_t) (w : world K) :
  fst (stored_result context w) =
  set_eax context (eax (fst (stored_result context w))).
Proof.
  unfold stored_result. cbv zeta.
  destruct (fst (runState (syscall_get_handler _) w)); reflexivity.
Qed.

(** C8, what the code does.  Once the result is stored, the dispatcher
    writes one failure line exactly when the failure condition holds: the
    identifier is in the handle range and the result is not success, or it
    is an enumerator below the handle range and the result is negative.
    For an identifier of the enumeration the logging changes neither the
    context nor the state of the kernel components and the dispatcher
    returns.  For an identifier outside the enumeration on which one of the
    two tests holds, the logging statement reads [syscall_names] out of
    bounds: the run does not reach the return. *)
Theorem dispatcher_failure_logging (context : processor_context_t) (w : world K) :
  reached (fst (runState (syscall_dispatcher context) w)) =
    fst (stored_result context w)
  /\ kstate (snd (runState (syscall_dispatcher context) w)) =
     kstate (snd (stored_result context w))
  /\ ((failure_condition (decode_syscall (eax context))
                         (eax (fst (stored_result context w))) /\
       fst (runState (syscall_dispatcher context) w) =
         Returned (fst (stored_result context w)) /\
       exists code,
         trace (snd (runState (syscall_dispatcher context) w)) =
         trace (snd (stored_result context w)) ++
         [EvLog (LogReturned (decode_syscall (eax context))
                             (ebx context) (ecx context) (edx context)
                             (esi context) (edi context) code)])
      \/ (~ failure_condition (decode_syscall (eax context))
                              (eax (fst (stored_result context w))) /\
          trace (snd (runState (syscall_dispatcher context) w)) =
            trace (snd (stored_result context w)) /\
          ((logging_test (decode_syscall (eax context))
                         (eax (fst (stored_result context w))) = false /\
            fst (runState (syscall_dispatcher context) w) =
              Returned (fst (stored_result context w)))
           \/ (logging_test (decode_syscall (eax context))
                            (eax (fst (stored_result context w))) = true /\
               ~ in_enumeration (decode_syscall (eax context)) /\
               fst (runState (syscall_dispatcher context) w) =
                 OutOfBounds (fst (stored_result context w))
                             (decode_syscall (eax context)))))).
Proof.
  rewrite dispatcher_run.
  pose proof (failure_condition_iff (decode_syscall (eax context))
                (eax (fst (stored_result context w)))) as Hiff.
  destruct (logging_test _ _) eqn:Htest.
  - destruct (Z_lt_le_dec (decode_syscall (eax context)) 0) as [Hneg | Hpos];
      [| destruct (Z_lt_le_dec (decode_syscall (eax context)) SYSCALL_COUNT)
           as [Hin | Hout]].
    + rewrite syscall_names_out by (unfold in_enumeration; lia).
      cbn [fst snd reached]. split; [reflexivity |]. split; [reflexivity |].
      right. split; [rewrite Hiff; unfold in_enumeration; intros [H _]; lia |].
      split; [reflexivity |]. right.
      split; [reflexivity |]. split; [unfold in_enumeration; lia | reflexivity].
    + rewrite syscall_names_in by (unfold in_enumeration; lia).
      cbn [fst snd reached add_trace kstate trace].
      split; [reflexivity |]. split; [reflexivity |].
      left. split; [apply Hiff; unfold in_enumeration; split; [lia | reflexivity] |].
      split; [reflexivity |]. eexists. reflexivity.
    + rewrite syscall_names_out by (unfold in_enumeration; lia).
      cbn [fst snd reached]. split; [reflexivity |]. split; [reflexivity |].
      right. split; [rewrite Hiff; unfold in_enumeration; intros [H _]; lia |].
      split; [reflexivity |]. right.
      split; [reflexivity |]. split; [unfold in_enumeration; lia | reflexivity].
  - cbn [fst snd reached]. split; [reflexivity |]. split; [reflexivity |].
    right. split; [rewrite Hiff; intros [_ H]; discriminate H |].
    split; [reflexivity |]. left. split; reflexivity.
Qed.

(** The result stored in [eax] is the handler's [int] converted to the
    register, or the not-implemented code. *)
Lemma stored_result_eax (context : processor_context_t) (w : world K) :
  let syscall := decode_syscall (eax context) in
  let looked := runState (syscall_get_handler syscall) w in
  eax (fst (stored_result context w)) =
  match fst looked with
  | Some handler =>
      to_u32 (fst (runState (handler (ebx context) (ecx context) (edx context)
                                     (esi context) (edi context))
                            (add_trace (snd looked) [EvInvoke syscall])))
  | None => to_u32 (- ERR_FUNCTION_NOT_IMPLEMENTED)
  end.
Proof.
  unfold stored_result. cbv zeta.
  destruct (fst (runState (syscall_get_handler _) w)); reflexivity.
Qed.

(** The context at the end of a run is the one at the store. *)
Lemma dispatcher_reaches_stored (context : processor_context_t) (w : world K) :
  reached (fst (runState (syscall_dispatcher context) w)) =
  fst (stored_result context w).
Proof.
  rewrite dispatcher_run.
  destruct (logging_test _ _); [| reflexivity].
  destruct (syscall_names _); reflexivity.
Qed.

(** C10.  The context after dispatch differs from the incoming one in [eax]
    only: [ebx], [ecx], [edx], [esi] and [edi] are as before.  This holds
    of the context at the end of every run, also of one that ends at the
    read outside [syscall_names]. *)
Theorem dispatcher_preserves_arguments (context : processor_context_t) (w : world K) :
  reached (fst (runState (syscall_dispatcher context) w)) =
    set_eax context (eax (reached (fst (runState (syscall_dispatcher context) w))))
  /\ ebx (reached (fst (runState (syscall_dispatcher context) w))) = ebx context
  /\ ecx (reached (fst (runState (syscall_dispatcher context) w))) = ecx context
  /\ edx (reached (fst (runState (syscall_dispatcher context) w))) = edx context
  /\ esi (reached (fst (runState (syscall_dispatcher context) w))) = esi context
  /\ edi (reached (fst (runState (syscall_dispatcher context) w))) = edi context.
Proof.
  rewrite dispatcher_reaches_stored.
  split; [apply stored_result_frame |].
  rewrite stored_result_frame. cbn. repeat split; reflexivity.
Qed.

(** The lookup of an identifier outside the enumeration, or of one whose
    table entry is null, yields no handler and logs one line. *)
Lemma get_handler_none (syscall : Z) (w : world K) :
  syscall < 0 \/ SYSCALL_COUNT <= syscall \/ syscalls syscall = None ->
  runState (syscall_get_handler syscall) w =
  (None,
   add_trace (mkWorld (fst (kernel sheduler_running_id [] (kstate w))) (trace w))
     [EvCall sheduler_running_id [];
      EvLog ((if (syscall >=? 0) && (syscall <? SYSCALL_COUNT)
              then LogNotImplemented else LogUnknown)
               syscall
               (to_s32 (snd (kernel sheduler_running_id [] (kstate w)))))]).
Proof.
  intros H. unfold syscall_get_handler, add_trace.
  destruct ((syscall >=? 0) && (syscall <? SYSCALL_COUNT)) eqn:Hrange.
  - apply andb_true_iff in Hrange. destruct Hrange as [Hlo Hhi].
    apply Z.geb_le in Hlo. apply Z.ltb_lt in Hhi.
    destruct H as [H | [H | H]]; [lia | lia |].
    rewrite H. cbn. rewrite <- app_assoc. reflexivity.
  - cbn. rewrite <- app_assoc. reflexivity.
Qed.

(** The not-implemented code in the register, for a code between 1 and
    2^31 and a success code of 0: it is negative as an [int], differs from
    the success code, and negating it again gives the code back. *)
Lemma not_implemented_code :
  ERR_SUCCESS = 0 ->
  0 < ERR_FUNCTION_NOT_IMPLEMENTED <= half_modulus ->
  to_s32 (to_u32 (- ERR_FUNCTION_NOT_IMPLEMENTED)) = - ERR_FUNCTION_NOT_IMPLEMENTED
  /\ to_u32 (- ERR_FUNCTION_NOT_IMPLEMENTED) <> to_u32 ERR_SUCCESS
  /\ to_u32 (- to_u32 (- ERR_FUNCTION_NOT_IMPLEMENTED)) = ERR_FUNCTION_NOT_IMPLEMENTED.
Proof.
  intros Hsuccess Hcode. rewrite half_modulus_eq in Hcode.
  assert (Hu : to_u32 (- ERR_FUNCTION_NOT_IMPLEMENTED) =
               modulus - ERR_FUNCTION_NOT_IMPLEMENTED).
  { unfold to_u32. symmetry.
    apply Z.mod_unique with (q := -1); rewrite modulus_eq; lia. }
  split; [| split].
  - apply to_s32_to_u32. unfold is_int. rewrite half_modulus_eq. lia.
  - rewrite Hu, Hsuccess. unfold to_u32. rewrite Z.mod_0_l;
      rewrite modulus_eq; lia.
  - rewrite Hu. unfold to_u32. symmetry.
    apply Z.mod_unique with (q := -1); rewrite modulus_eq; lia.
Qed.

(** Both logging tests look at the not-implemented code the same way: one
    of them holds whatever the identifier. *)
Lemma logging_test_not_implemented (syscall : Z) :
  ERR_SUCCESS = 0 ->
  0 < ERR_FUNCTION_NOT_IMPLEMENTED <= half_modulus ->
  logging_test syscall (to_u32 (- ERR_FUNCTION_NOT_IMPLEMENTED)) = true.
Proof.
  intros Hsuccess Hcode.
  destruct (not_implemented_code Hsuccess Hcode) as [Hint [Hne _]].
  unfold logging_test. rewrite Hint.
  apply Z.eqb_neq in Hne. rewrite Hne.
  destruct (Z.geb_spec syscall (enum_value SYS_HANDLE_OPEN));
    destruct (Z.ltb_spec syscall (enum_value SYS_HANDLE_OPEN)); try lia;
    cbn [andb orb negb]; first [reflexivity | apply Z.ltb_lt; lia].
Qed.

(** C2, what the code does.  For an identifier outside [0, SYSCALL_COUNT),
    and for one inside whose table entry is null, no handler is invoked:
    up to the store everything done is logging and asking for the running
    process id, and the value stored in [eax] is
    [-ERR_FUNCTION_NOT_IMPLEMENTED], a negative [int].  For the null entry
    the dispatcher then logs one line and returns.  For the identifier
    outside the enumeration the logging statement that follows the store
    indexes [syscall_names] with that identifier: the run ends at a read
    out of bounds instead of returning. *)
Theorem dispatcher_not_implemented (context : processor_context_t) (w : world K) :
  decode_syscall (eax context) < 0 \/
  SYSCALL_COUNT <= decode_syscall (eax context) \/
  syscalls (decode_syscall (eax context)) = None ->
  ERR_SUCCESS = 0 ->
  0 < ERR_FUNCTION_NOT_IMPLEMENTED <= half_modulus ->
  fst (stored_result context w) =
    set_eax context (to_u32 (- ERR_FUNCTION_NOT_IMPLEMENTED))
  /\ to_s32 (eax (fst (stored_result context w))) = - ERR_FUNCTION_NOT_IMPLEMENTED
  /\ to_s32 (eax (fst (stored_result context w))) < 0
  /\ kstate (snd (stored_result context w)) =
     fst (kernel sheduler_running_id [] (kstate w))
  /\ (exists events,
        trace (snd (stored_result context w)) = trace w ++ events
        /\ forallb dispatcher_own events = true)
  /\ (in_enumeration (decode_syscall (eax context)) ->
      exists code,
        runState (syscall_dispatcher context) w =
        (Returned (fst (stored_result context w)),
         add_trace (snd (stored_result context w))
           [EvLog (LogReturned (decode_syscall (eax context))
                     (ebx context) (ecx context) (edx context)
                     (esi context) (edi context) code)]))
  /\ (~ in_enumeration (decode_syscall (eax context)) ->
      runState (syscall_dispatcher context) w =
      (OutOfBounds (fst (stored_result context w)) (decode_syscall (eax context)),
       snd (stored_result context w))).
Proof.
  intros Hnone Hsuccess Hcode.
  destruct (not_implemented_code Hsuccess Hcode) as [Hint _].
  assert (Hstored : stored_result context w =
    (set_eax context (to_u32 (- ERR_FUNCTION_NOT_IMPLEMENTED)),
     add_trace
       (add_trace (mkWorld (fst (kernel sheduler_running_id [] (kstate w))) (trace w))
          [EvCall sheduler_running_id [];
           EvLog ((if (decode_syscall (eax context) >=? 0) &&
                      (decode_syscall (eax context) <? SYSCALL_COUNT)
                   then LogNotImplemented else LogUnknown)
                    (decode_syscall (eax context))
                    (to_s32 (snd (kernel sheduler_running_id [] (kstate w)))))])
       [EvLog (LogContext (ebx context) (ecx context) (edx context)
                          (esi context) (edi context))])).
  { unfold stored_result. cbv zeta. rewrite (get_handler_none _ w Hnone).
    reflexivity. }
  rewrite dispatcher_run. rewrite Hstored.
  cbn [fst snd eax set_eax kstate trace add_trace].
  rewrite (logging_test_not_implemented _ Hsuccess Hcode).
  split; [reflexivity |]. split; [exact Hint |].
  split; [rewrite Hint; lia |]. split; [reflexivity |].
  split; [| split].
  - eexists. split; [rewrite <- app_assoc; reflexivity | reflexivity].
  - intros Hin. rewrite (syscall_names_in _ Hin). eexists. reflexivity.
  - intros Hout. rewrite (syscall_names_out _ Hout). reflexivity.
Qed.

End DispatcherProperties.

(** ** Runs on concrete inputs *)

Lemma launch_bad_address_witness :
  runState (sys_process_launch (kern := counting_kernel) (abi := sample_abi) 0x1000) boot
  = (-7, boot).
Proof.
  apply (launch_bad_address (kern := counting_kernel) (abi := sample_abi) 0x1000 boot).
  right. lia.
Defined.

(** A count of 2^30 + 2: the handles array would take 2^32 + 8 bytes, the
    validator is asked about 8. *)
Lemma select_unchecked_length_witness :
  ~ range_allowed 0x200000 (sizeof_int * 0x40000002)
  /\ to_u32 (sizeof_int * 0x40000002) < sizeof_int * 0x40000002
  /\ exists t,
       trace (snd (runState (sys_handle_select (kern := counting_kernel)
                               (abi := sample_abi)
                               0x200000 0x300000 0x40000002 0x400000) boot)) =
       trace boot ++ [EvCall sheduler_running [];
                      EvCall task_fshandle_select
                        [W t; W 0x200000; W 0x300000; W 0x40000002; W 0x400000]].
Proof.
  apply (select_unchecked_length (kern := counting_kernel) (abi := sample_abi)
           0x200000 0x300000 0x40000002 0x400000 boot).
  - unfold is_word. rewrite modulus_eq. lia.
  - rewrite modulus_eq. unfold sizeof_int. lia.
  - reflexivity.
  - reflexivity.
  - reflexivity.
Defined.

(** C6 at the failing input, step by step: the reduced length is 8, the
    three checks pass, and the task layer is handed the count 0x40000002. *)
Example select_overflowing_count :
  to_u32 (sizeof_int * 0x40000002) = 8
  /\ syscall_validate_ptr 0x200000 (to_u32 (sizeof_int * 0x40000002)) = true
  /\ runState (sys_handle_select (kern := counting_kernel) (abi := sample_abi)
                 0x200000 0x300000 0x40000002 0x400000) boot
     = (1, mkWorld 2 [EvCall sheduler_running [];
                      EvCall task_fshandle_select
                        [W 0; W 0x200000; W 0x300000; W 0x40000002; W 0x400000]]).
Proof. repeat split. Qed.

Lemma bad_address_codes_witness :
  runState (sys_process_launch (kern := counting_kernel) (abi := sample_abi) 0) boot
    = (-7, boot)
  /\ runState (sys_handle_open (kern := counting_kernel) (abi := sample_abi) 0 0 0) boot
    = (7, boot).
Proof.
  assert (Hpos : 0 < ERR_BAD_ADDRESS (Abi := sample_abi)) by (cbn; lia).
  destruct (bad_address_codes (kern := counting_kernel) (abi := sample_abi) boot Hpos)
    as [Hlaunch [Hopen _]].
  split.
  - apply (Hlaunch 0). reflexivity.
  - apply (Hopen 0 0 0). reflexivity.
Defined.

(** C4, the statement as written fails: [sys_handle_open] called with the
    null pointer as [handle] detects the validation failure and returns
    [ERR_BAD_ADDRESS], which is not negative. *)
Lemma handle_open_bad_address_not_negative :
  syscall_validate_ptr 0 sizeof_int = false
  /\ runState (sys_handle_open (kern := counting_kernel) (abi := sample_abi) 0 0 0) boot
     = (ERR_BAD_ADDRESS (Abi := sample_abi), boot)
  /\ ~ fst (runState (sys_handle_open (kern := counting_kernel) (abi := sample_abi)
                        0 0 0) boot) < 0.
Proof.
  split; [reflexivity |]. split; [reflexivity |]. cbn. lia.
Qed.

Lemma dispatcher_not_implemented_witness :
  (* identifier 0x20000000 with 47 enumerators: outside the enumeration *)
  runState (syscall_dispatcher (kern := counting_kernel) (abi := sample_abi)
              (mkContext 0x20000000 1 2 3 4 5)) boot
  = (OutOfBounds (mkContext 4294967271 1 2 3 4 5) 0x20000000,
     mkWorld 1 [EvCall sheduler_running_id []; EvLog (LogUnknown 0x20000000 0);
                EvLog (LogContext 1 2 3 4 5)])
  (* identifier 47 with 48 enumerators: inside, the table entry is null *)
  /\ exists code,
       runState (syscall_dispatcher (kern := counting_kernel) (abi := padded_abi)
                   (mkContext 47 1 2 3 4 5)) boot
       = (Returned (mkContext 4294967271 1 2 3 4 5),
          mkWorld 1 [EvCall sheduler_running_id []; EvLog (LogNotImplemented 47 0);
                     EvLog (LogContext 1 2 3 4 5);
                     EvLog (LogReturned 47 1 2 3 4 5 code)]).
Proof.
  split.
  - destruct (dispatcher_not_implemented (kern := counting_kernel) (abi := sample_abi)
                (mkContext 0x20000000 1 2 3 4 5) boot)
      as [_ [_ [_ [_ [_ [_ Hout]]]]]].
    + right. left. cbn. lia.
    + reflexivity.
    + rewrite half_modulus_eq. cbn. lia.
    + apply Hout. unfold in_enumeration. cbn. lia.
  - destruct (dispatcher_not_implemented (kern := counting_kernel) (abi := padded_abi)
                (mkContext 47 1 2 3 4 5) boot)
      as [_ [_ [_ [_ [_ [Hin _]]]]]].
    + right. right. reflexivity.
    + reflexivity.
    + rewrite half_modulus_eq. cbn. lia.
    + destruct Hin as [code Hrun]; [unfold in_enumeration; cbn; lia |].
      exists code. exact Hrun.
Defined.

(** The null entry of [padded_abi] is inside the enumeration. *)
Example padded_entry_null :
  0 <= 47 < SYSCALL_COUNT (Abi := padded_abi)
  /\ syscalls (kern := counting_kernel) (abi := padded_abi) 47 = None.
Proof. split; [cbn; lia | reflexivity]. Qed.

(** C2 and C8 at the failing input: the identifier 0x20000000 is unknown,
    the not-implemented code is stored, and the handle-range test then
    holds (the identifier is above [SYS_HANDLE_OPEN], the result is not
    success), so the logging statement reads [syscall_names[0x20000000]],
    far outside an array of 47 names.  The run ends there. *)
Example dispatch_unknown :
  syscall_names (abi := sample_abi) 0x20000000 = None
  /\ logging_test (abi := sample_abi) 0x20000000 4294967271 = true
  /\ runState (syscall_dispatcher (kern := counting_kernel) (abi := sample_abi)
                 (mkContext 0x20000000 1 2 3 4 5)) boot
     = (OutOfBounds (mkContext 4294967271 1 2 3 4 5) 0x20000000,
        mkWorld 1 [EvCall sheduler_running_id []; EvLog (LogUnknown 0x20000000 0);
                   EvLog (LogContext 1 2 3 4 5)]).
Proof. repeat split. Qed.

(** The same for the first identifier past the enumeration, and for the
    all-ones register read at a signed enumeration type, where it is the
    test for the identifiers below [SYS_HANDLE_OPEN] that holds. *)
Example dispatch_first_unknown :
  runState (syscall_dispatcher (kern := counting_kernel) (abi := sample_abi)
              (mkContext 47 1 2 3 4 5)) boot
  = (OutOfBounds (mkContext 4294967271 1 2 3 4 5) 47,
     mkWorld 1 [EvCall sheduler_running_id []; EvLog (LogUnknown 47 0);
                EvLog (LogContext 1 2 3 4 5)]).
Proof. reflexivity. Qed.

Example dispatch_all_ones_signed :
  runState (syscall_dispatcher (kern := counting_kernel) (abi := padded_abi)
              (mkContext 4294967295 1 2 3 4 5)) boot
  = (OutOfBounds (mkContext 4294967271 1 2 3 4 5) (-1),
     mkWorld 1 [EvCall sheduler_running_id []; EvLog (LogUnknown (-1) 0);
                EvLog (LogContext 1 2 3 4 5)]).
Proof. reflexivity. Qed.

(** [SYS_PROCESS_LAUNCH] with a launchpad below the watermark: the handler
    is invoked, nothing else happens, the negative code is logged. *)
Example dispatch_launch_below_watermark :
  runState (syscall_dispatcher (kern := counting_kernel) (abi := sample_abi)
              (mkContext 1 0x1000 0 0 0 0)) boot
  = (Returned (mkContext 4294967289 0x1000 0 0 0 0),
     mkWorld 0 [EvInvoke 1; EvLog (LogReturned 1 0x1000 0 0 0 0 7)]).
Proof. reflexivity. Qed.

(** [SYS_HANDLE_OPEN] with a null handle pointer: the positive code is
    stored and logged through the handle-range test. *)
Example dispatch_open_null :
  runState (syscall_dispatcher (kern := counting_kernel) (abi := sample_abi)
              (mkContext 32 0 0 0 0 0)) boot
  = (Returned (mkContext 7 0 0 0 0 0),
     mkWorld 0 [EvInvoke 32; EvLog (LogReturned 32 0 0 0 0 0 7)]).
Proof. reflexivity. Qed.

(** C3 at the failing input: [SYS_SYSTEM_GET_TIME] with a null pointer in
    [ebx] stores through address 0 and reports success. *)
Example dispatch_get_time_null :
  syscall_validate_ptr 0 4 = false
  /\ runState (syscall_dispatcher (kern := counting_kernel) (abi := sample_abi)
                 (mkContext 30 0 0 0 0 0)) boot
     = (Returned (mkContext 0 0 0 0 0 0),
        mkWorld 2 [EvInvoke 30; EvCall clock_now []; EvStore (W 0) 0]).
Proof. split; reflexivity. Qed.

(** C7 at the failing input: [SYS_PROCESS_FREE] with count 0 on a kernel
    whose [task_memory_free] answers -1 stores 0 in [eax], while
    [SYS_PROCESS_UNMAP] on a kernel that refuses alike stores the refusal. *)
Example dispatch_free_zero_count :
  snd (kernel (Kernel := counting_kernel) task_memory_free [W 0; W 0; W 0] 1) = -1
  /\ runState (syscall_dispatcher (kern := counting_kernel) (abi := sample_abi)
                 (mkContext 12 0 0 0 0 0)) boot
     = (Returned (mkContext 0 0 0 0 0 0),
        mkWorld 2 [EvInvoke 12; EvCall sheduler_running [];
                   EvCall task_memory_free [W 0; W 0; W 0]]).
Proof. split; reflexivity. Qed.

(** The products in [sys_handle_select] are taken in [size_t]: a count of
    2^30 gives a length of 0 for the handles array. *)
Example select_length_wraps : to_u32 (sizeof_int * 0x40000000) = 0.
Proof. reflexivity. Qed.

(** ** Further properties of the validator *)

(** X1.  Every address of an accepted range, the end included, is at or
    above the watermark and inside the 32-bit address space; the length of
    an accepted range is at most 2^32 - 0x100000 - 1. *)
Theorem validate_ptr_range_safe (ptr size offset : Z) :
  is_word ptr -> is_word size ->
  syscall_validate_ptr ptr size = true ->
  0 <= offset <= size ->
  0x100000 <= ptr + offset < modulus /\ size < modulus - 0x100000.
Proof.
  intros Hp Hs Hv Ho.
  apply validate_ptr_true_iff in Hv; [| assumption | assumption].
  unfold is_word in *. lia.
Qed.

(** X2.  Every range that lies inside an accepted range is accepted. *)
Theorem validate_ptr_subrange (ptr size offset length : Z) :
  is_word ptr -> is_word size ->
  syscall_validate_ptr ptr size = true ->
  0 <= offset -> 0 <= length -> offset + length <= size ->
  syscall_validate_ptr (ptr + offset) length = true.
Proof.
  intros Hp Hs Hv Ho Hl Hfit.
  apply validate_ptr_true_iff in Hv; [| assumption | assumption].
  apply validate_ptr_true_iff; unfold is_word in *; lia.
Qed.

(** X3.  Two accepted ranges that follow one another make one accepted
    range, whose length still fits 32 bits. *)
Theorem validate_ptr_join (ptr first second : Z) :
  is_word ptr -> is_word first -> is_word second ->
  syscall_validate_ptr ptr first = true ->
  syscall_validate_ptr (ptr + first) second = true ->
  is_word (first + second) /\
  syscall_validate_ptr ptr (first + second) = true.
Proof.
  intros Hp Hf Hs H1 H2.
  apply validate_ptr_true_iff in H1; [| assumption | assumption].
  apply validate_ptr_true_iff in H2;
    [| unfold is_word in *; lia | assumption].
  assert (Hw : is_word (first + second)) by (unfold is_word in *; lia).
  split; [exact Hw |].
  apply validate_ptr_true_iff; [assumption | exact Hw |].
  unfold is_word in *. lia.
Qed.

Lemma validate_ptr_range_safe_witness :
  0x100000 <= 0x200000 + 10 < modulus /\ 64 < modulus - 0x100000.
Proof.
  apply (validate_ptr_range_safe 0x200000 64 10);
    [unfold is_word; rewrite modulus_eq; lia
    | unfold is_word; rewrite modulus_eq; lia
    | reflexivity
    | lia].
Defined.

Lemma validate_ptr_subrange_witness :
  syscall_validate_ptr (0x200000 + 16) 32 = true.
Proof.
  apply (validate_ptr_subrange 0x200000 64 16 32);
    [unfold is_word; rewrite modulus_eq; lia
    | unfold is_word; rewrite modulus_eq; lia
    | reflexivity | lia | lia | lia].
Defined.

Lemma validate_ptr_join_witness :
  is_word (64 + 32) /\ syscall_validate_ptr 0x200000 (64 + 32) = true.
Proof.
  apply (validate_ptr_join 0x200000 64 32);
    [unfold is_word; rewrite modulus_eq; lia
    | unfold is_word; rewrite modulus_eq; lia
    | unfold is_word; rewrite modulus_eq; lia
    | reflexivity | reflexivity].
Defined.

(** ** Properties of the dispatch table *)

Section TableProperties.

Context {K : Type} {kern : Kernel K} {abi : Abi}.

(** The enumerators the initialiser designates, in source order. *)
Lemma syscalls_init_keys :
  map fst syscalls_init =
  [ SYS_PROCESS_THIS; SYS_PROCESS_LAUNCH; SYS_PROCESS_EXIT; SYS_PROCESS_CANCEL;
    SYS_PROCESS_SLEEP; SYS_PROCESS_WAKEUP; SYS_PROCESS_WAIT; SYS_PROCESS_GET_CWD;
    SYS_PROCESS_SET_CWD; SYS_PROCESS_MAP; SYS_PROCESS_UNMAP; SYS_PROCESS_ALLOC;
    SYS_PROCESS_FREE;
    SYS_SHARED_MEMORY_ALLOC; SYS_SHARED_MEMORY_ACQUIRE; SYS_SHARED_MEMORY_RELEASE;
    SYS_MESSAGING_SEND; SYS_MESSAGING_BROADCAST; SYS_MESSAGING_REQUEST;
    SYS_MESSAGING_RECEIVE; SYS_MESSAGING_RESPOND; SYS_MESSAGING_SUBSCRIBE;
    SYS_MESSAGING_UNSUBSCRIBE;
    SYS_FILESYSTEM_MKDIR; SYS_FILESYSTEM_MKPIPE; SYS_FILESYSTEM_LINK;
    SYS_FILESYSTEM_UNLINK; SYS_FILESYSTEM_RENAME;
    SYS_SYSTEM_GET_INFO; SYS_SYSTEM_GET_STATUS; SYS_SYSTEM_GET_TIME;
    SYS_SYSTEM_GET_TICKS;
    SYS_HANDLE_OPEN; SYS_HANDLE_CLOSE; SYS_HANDLE_SELECT; SYS_HANDLE_READ;
    SYS_HANDLE_WRITE; SYS_HANDLE_CALL; SYS_HANDLE_SEEK; SYS_HANDLE_TELL;
    SYS_HANDLE_STAT; SYS_HANDLE_CONNECT; SYS_HANDLE_ACCEPT; SYS_HANDLE_SEND;
    SYS_HANDLE_RECEIVE; SYS_HANDLE_PAYLOAD; SYS_HANDLE_DISCARD ].
Proof. reflexivity. Qed.

Lemma syscalls_init_keys_nodup : NoDup (map fst syscalls_init).
Proof.
  apply (NoDup_map_inv table_order). rewrite syscalls_init_keys.
  change (NoDup (map Z.of_nat (seq 0 47))).
  apply Injective_map_NoDup; [| apply seq_NoDup].
  intros x y Hxy. apply Nat2Z.inj. exact Hxy.
Qed.

Lemma nodup_keys_functional {A B : Type} (l : list (A * B)) a b b' :
  NoDup (map fst l) -> In (a, b) l -> In (a, b') l -> b = b'.
Proof.
  induction l as [| [a0 b0] l IH]; intros Hnd H1 H2; [contradiction |].
  cbn in Hnd. inversion Hnd as [| ? ? Hnotin Hnd']; subst.
  destruct H1 as [H1 | H1]; destruct H2 as [H2 | H2].
  - congruence.
  - injection H1 as -> ->. exfalso. apply Hnotin.
    apply (in_map fst) in H2. exact H2.
  - injection H2 as -> ->. exfalso. apply Hnotin.
    apply (in_map fst) in H1. exact H1.
  - apply IH; assumption.
Qed.

(** The entry of an enumerator's value, for an enumeration without repeated
    values. *)
Lemma syscalls_lookup (s : Syscall) handler :
  (forall a b, enum_value a = enum_value b -> a = b) ->
  In (s, handler) syscalls_init ->
  syscalls (enum_value s) = Some handler.
Proof.
  intros Hinj Hin. unfold syscalls.
  destruct (find _ (rev syscalls_init)) as [[s' h'] |] eqn:Hfind.
  - apply find_some in Hfind. destruct Hfind as [Hin' Heq].
    apply in_rev in Hin'. cbn in Heq. apply Z.eqb_eq in Heq.
    apply Hinj in Heq. subst s'. cbn. f_equal.
    apply (nodup_keys_functional syscalls_init s);
      [apply syscalls_init_keys_nodup | exact Hin' | exact Hin].
  - exfalso.
    apply in_rev in Hin.
    pose proof (find_none _ _ Hfind _ Hin) as Hneq.
    cbn in Hneq. rewrite Z.eqb_refl in Hneq. discriminate.
Qed.

End TableProperties.
(** ** Further properties of the dispatcher *)

Section MoreDispatcherProperties.

Context {K : Type} {kern : Kernel K} {abi : Abi}.

(** The lookup of an identifier inside the enumeration whose entry is
    assigned returns the entry and does nothing else. *)
Lemma get_handler_some (syscall : Z) handler (w : world K) :
  0 <= syscall < SYSCALL_COUNT ->
  syscalls syscall = Some handler ->
  runState (syscall_get_handler syscall) w = (Some handler, w).
Proof.
  intros Hrange Hentry. unfold syscall_get_handler.
  replace ((syscall >=? 0) && (syscall <? SYSCALL_COUNT)) with true.
  - rewrite Hentry. reflexivity.
  - symmetry. apply andb_true_iff. split; [apply Z.geb_le | apply Z.ltb_lt]; lia.
Qed.

(** X6.  When [eax] holds the value of an enumerator (values without
    repetition, inside the enumeration), the dispatcher runs the handler the
    table initialiser assigns to it, on the argument registers, with nothing
    logged before it; it stores the handler's result in [eax], afterwards
    logs at most one line, and returns. *)
Theorem dispatcher_runs_assigned_handler
        (s : Syscall) handler (context : processor_context_t) (w : world K) :
  (forall a b, enum_value a = enum_value b -> a = b) ->
  In (s, handler) syscalls_init ->
  0 <= enum_value s < SYSCALL_COUNT ->
  decode_syscall (eax context) = enum_value s ->
  exists lines,
    runState (syscall_dispatcher context) w =
    (Returned
       (set_eax context
          (to_u32 (fst (runState (handler (ebx context) (ecx context) (edx context)
                                          (esi context) (edi context))
                                 (add_trace w [EvInvoke (enum_value s)]))))),
     add_trace
       (snd (runState (handler (ebx context) (ecx context) (edx context)
                               (esi context) (edi context))
                      (add_trace w [EvInvoke (enum_value s)])))
       (map EvLog lines))
    /\ (List.length lines <= 1)%nat.
Proof.
  intros Hinj Hin Hrange Hid.
  assert (Hstored : stored_result context w =
    (set_eax context
       (to_u32 (fst (runState (handler (ebx context) (ecx context) (edx context)
                                       (esi context) (edi context))
                              (add_trace w [EvInvoke (enum_value s)])))),
     snd (runState (handler (ebx context) (ecx context) (edx context)
                            (esi context) (edi context))
                   (add_trace w [EvInvoke (enum_value s)])))).
  { unfold stored_result. cbv zeta. rewrite Hid.
    rewrite (get_handler_some _ handler w Hrange (syscalls_lookup s handler Hinj Hin)).
    reflexivity. }
  rewrite dispatcher_run, Hstored, Hid. cbn [fst snd].
  rewrite (syscall_names_in (enum_value s) Hrange).
  destruct (logging_test _ _).
  - eexists [_]. split; [reflexivity | cbn; lia].
  - exists []. split; [rewrite add_trace_nil; reflexivity | cbn; lia].
Qed.

(** X7.  With [ERR_SUCCESS] equal to 0 and a not-implemented code between
    1 and 2^31, a call whose identifier is inside the enumeration and has a
    null entry returns and leaves exactly three log lines after the query
    of the running process id: "not implemented", the argument registers,
    and the returned error, whose code is handed to [error_to_string]
    un-negated in the handle range and negated below it.  A call whose
    identifier is outside the enumeration leaves exactly two lines,
    "unknown" and the argument registers, and then reads [syscall_names]
    outside the array. *)
Theorem dispatcher_not_implemented_log (context : processor_context_t) (w : world K) :
  ERR_SUCCESS = 0 ->
  0 < ERR_FUNCTION_NOT_IMPLEMENTED <= half_modulus ->
  (in_enumeration (decode_syscall (eax context)) ->
   syscalls (decode_syscall (eax context)) = None ->
   runState (syscall_dispatcher context) w =
   (Returned (set_eax context (to_u32 (- ERR_FUNCTION_NOT_IMPLEMENTED))),
    mkWorld (fst (kernel sheduler_running_id [] (kstate w)))
      (trace w ++
       [EvCall sheduler_running_id [];
        EvLog (LogNotImplemented (decode_syscall (eax context))
                 (to_s32 (snd (kernel sheduler_running_id [] (kstate w)))));
        EvLog (LogContext (ebx context) (ecx context) (edx context)
                          (esi context) (edi context));
        EvLog (LogReturned (decode_syscall (eax context))
                 (ebx context) (ecx context) (edx context) (esi context)
                 (edi context)
                 (if decode_syscall (eax context) >=? enum_value SYS_HANDLE_OPEN
                  then to_u32 (- ERR_FUNCTION_NOT_IMPLEMENTED)
                  else ERR_FUNCTION_NOT_IMPLEMENTED))])))
  /\ (~ in_enumeration (decode_syscall (eax context)) ->
      runState (syscall_dispatcher context) w =
      (OutOfBounds (set_eax context (to_u32 (- ERR_FUNCTION_NOT_IMPLEMENTED)))
                   (decode_syscall (eax context)),
       mkWorld (fst (kernel sheduler_running_id [] (kstate w)))
         (trace w ++
          [EvCall sheduler_running_id [];
           EvLog (LogUnknown (decode_syscall (eax context))
                    (to_s32 (snd (kernel sheduler_running_id [] (kstate w)))));
           EvLog (LogContext (ebx context) (ecx context) (edx context)
                             (esi context) (edi context))]))).
Proof.
  intros Hsuccess Hcode.
  destruct (not_implemented_code Hsuccess Hcode) as [_ [_ Hback]].
  assert (Hstored :
    decode_syscall (eax context) < 0 \/
    SYSCALL_COUNT <= decode_syscall (eax context) \/
    syscalls (decode_syscall (eax context)) = None ->
    stored_result context w =
    (set_eax context (to_u32 (- ERR_FUNCTION_NOT_IMPLEMENTED)),
     mkWorld (fst (kernel sheduler_running_id [] (kstate w)))
       (trace w ++
        [EvCall sheduler_running_id [];
         EvLog ((if (decode_syscall (eax context) >=? 0) &&
                    (decode_syscall (eax context) <? SYSCALL_COUNT)
                 then LogNotImplemented else LogUnknown)
                  (decode_syscall (eax context))
                  (to_s32 (snd (kernel sheduler_running_id [] (kstate w)))));
         EvLog (LogContext (ebx context) (ecx context) (edx context)
                           (esi context) (edi context))]))).
  { intros Hnone. unfold stored_result. cbv zeta.
    rewrite (get_handler_none _ w Hnone). unfold add_trace.
    cbn [fst snd kstate trace]. rewrite <- app_assoc. reflexivity. }
  split.
  - intros Hin Hnull. rewrite dispatcher_run.
    rewrite (Hstored (or_intror (or_intror Hnull))).
    cbn [fst snd eax set_eax].
    rewrite (logging_test_not_implemented _ Hsuccess Hcode).
    rewrite (syscall_names_in _ Hin).
    unfold in_enumeration in Hin.
    replace ((decode_syscall (eax context) >=? 0) &&
             (decode_syscall (eax context) <? SYSCALL_COUNT)) with true
      by (symmetry; apply andb_true_iff;
          split; [apply Z.geb_le | apply Z.ltb_lt]; lia).
    unfold add_trace, logged_code. cbn [kstate trace]. rewrite Hback.
    rewrite <- app_assoc. reflexivity.
  - intros Hout. rewrite dispatcher_run.
    assert (Hnone : decode_syscall (eax context) < 0 \/
                    SYSCALL_COUNT <= decode_syscall (eax context) \/
                    syscalls (decode_syscall (eax context)) = None).
    { unfold in_enumeration in Hout. lia. }
    rewrite (Hstored Hnone). cbn [fst snd eax set_eax].
    rewrite (logging_test_not_implemented _ Hsuccess Hcode).
    rewrite (syscall_names_out _ Hout).
    replace ((decode_syscall (eax context) >=? 0) &&
             (decode_syscall (eax context) <? SYSCALL_COUNT)) with false;
      [reflexivity |].
    symmetry. apply andb_false_iff. unfold in_enumeration in Hout.
    destruct (Z.geb_spec (decode_syscall (eax context)) 0); [| left; reflexivity].
    right. apply Z.ltb_ge. lia.
Qed.

End MoreDispatcherProperties.


(** ** Invariants of all handlers of the table *)

Section HandlerInvariants.

Context {K : Type} {kern : Kernel K} {abi : Abi}.

Lemma record_extended (t before events : list event) (P : list event -> Prop) :
  t = before ++ events -> P events ->
  exists events', t = before ++ events' /\ P events'.
Proof. intros Ht HP. exists events. split; assumption. Qed.

(** Runs the handler of each table entry in turn, by cases on its pointer
    checks, and leaves the property of the events it adds to be computed. *)
Ltac each_handler Hin :=
  cbn [In syscalls_init] in Hin;
  repeat (destruct Hin as [Hin | Hin];
          [injection Hin as <- <-; cbn beta | ]);
  [ .. | contradiction ];
  unfold sys_process_this, sys_process_launch, sys_process_exit,
    sys_process_cancel, sys_process_sleep, sys_process_wakeup, sys_process_wait,
    sys_process_get_cwd, sys_process_set_cwd, sys_process_map, sys_process_unmap,
    sys_process_alloc, sys_process_free, sys_shared_memory_alloc,
    sys_shared_memory_acquire, sys_shared_memory_release, sys_messaging_send,
    sys_messaging_broadcast, sys_messaging_request, sys_messaging_receive,
    sys_messaging_respond, sys_messaging_subscribe, sys_messaging_unsubscribe,
    sys_filesystem_mkdir, sys_filesystem_mkpipe, sys_filesystem_link,
    sys_filesystem_unlink, sys_filesystem_rename, sys_system_get_info,
    sys_system_get_status, sys_system_get_time, sys_system_get_ticks,
    sys_handle_open, sys_handle_close, sys_handle_select, sys_handle_read,
    sys_handle_write, sys_handle_call, sys_handle_seek, sys_handle_tell,
    sys_handle_stat, sys_handle_connect, sys_handle_accept, sys_handle_send,
    sys_handle_receive, sys_handle_payload, sys_handle_discard, ATOMIC;
  repeat match goal with
         | |- context [syscall_validate_ptr ?p ?n] =>
             destruct (syscall_validate_ptr p n)
         end;
  cbn;
  (eapply record_extended;
   [ rewrite <- ?app_assoc; first [reflexivity | symmetry; apply app_nil_r]
   | cbn; try reflexivity ]).

(** X9.  Whatever the arguments and whatever the components answer, every
    handler of the table leaves each critical section it enters, never
    enters one inside another, and looks a task up by its id
    ([task_getbyid]) and acts on the task it found ([task_cancel],
    [task_wakeup]) only inside a critical section. *)
Theorem handlers_keep_critical_sections
        (s : Syscall) handler (a b c d e : Z) (w : world K) :
  In (s, handler) syscalls_init ->
  exists events,
    trace (snd (runState (handler a b c d e) w)) = trace w ++ events
    /\ atomic_sections false events = Some false.
Proof.
  intros Hin. each_handler Hin.
Qed.




(** X12.  The byte counts that [sys_handle_select] checks are products in
    32 bits: when [sizeof(SelectEvent)] is a multiple of 4, raising [count]
    by a multiple of 2^30 changes none of the three checks.  So whenever a
    call with [count] reaches the task layer, the call with the larger count
    reaches it too, with the larger count passed on. *)
Theorem select_count_wraps
        (handles events count selected k : Z) (w : world K) :
  sizeof_SelectEvent mod 4 = 0 ->
  syscall_validate_ptr handles (to_u32 (sizeof_int * count)) = true ->
  syscall_validate_ptr events (to_u32 (sizeof_SelectEvent * count)) = true ->
  syscall_validate_ptr selected sizeof_int = true ->
  exists t,
    trace (snd (runState (sys_handle_select handles events (count + k * 2 ^ 30)
                            selected) w)) =
    trace w ++ [EvCall sheduler_running [];
                EvCall task_fshandle_select
                  [W t; W handles; W events; W (count + k * 2 ^ 30); W selected]].
Proof.
  intros Hmul H1 H2 H3.
  assert (Hint : to_u32 (sizeof_int * (count + k * 2 ^ 30)) =
                 to_u32 (sizeof_int * count)).
  { unfold to_u32, sizeof_int.
    replace (4 * (count + k * 2 ^ 30)) with (4 * count + k * modulus)
      by (rewrite modulus_eq; lia).
    apply Z.mod_add. rewrite modulus_eq. lia. }
  assert (Hev : to_u32 (sizeof_SelectEvent * (count + k * 2 ^ 30)) =
                to_u32 (sizeof_SelectEvent * count)).
  { unfold to_u32.
    pose proof (Z.div_mod sizeof_SelectEvent 4 ltac:(lia)) as Hdiv.
    rewrite Hmul in Hdiv.
    replace (sizeof_SelectEvent * (count + k * 2 ^ 30))
      with (sizeof_SelectEvent * count + (sizeof_SelectEvent / 4 * k) * modulus)
      by (rewrite modulus_eq; lia).
    apply Z.mod_add. rewrite modulus_eq. lia. }
  unfold sys_handle_select. rewrite Hint, Hev, H1, H2, H3. cbn.
  eexists. rewrite <- app_assoc. reflexivity.
Qed.

End HandlerInvariants.

(** ** Further runs on concrete inputs *)

Lemma table_order_injective (a b : Syscall) :
  table_order a = table_order b -> a = b.
Proof.
  destruct a; destruct b; cbn; intros H;
    first [reflexivity | discriminate H].
Qed.

Lemma dispatcher_runs_assigned_handler_witness :
  exists lines,
    runState (syscall_dispatcher (kern := counting_kernel) (abi := sample_abi)
                (mkContext 10 0x400000 2 0 0 0)) boot =
    (Returned
       (set_eax (mkContext 10 0x400000 2 0 0 0)
          (to_u32 (fst (runState (sys_process_unmap (kern := counting_kernel) 0x400000 2)
                                 (add_trace boot [EvInvoke 10]))))),
     add_trace
       (snd (runState (sys_process_unmap (kern := counting_kernel) 0x400000 2)
                      (add_trace boot [EvInvoke 10])))
       (map EvLog lines))
    /\ (List.length lines <= 1)%nat.
Proof.
  apply (dispatcher_runs_assigned_handler (kern := counting_kernel) (abi := sample_abi)
           SYS_PROCESS_UNMAP (fun a b _ _ _ => sys_process_unmap (kern := counting_kernel) a b)
           (mkContext 10 0x400000 2 0 0 0) boot).
  - exact table_order_injective.
  - cbn. do 10 right. left. reflexivity.
  - cbn. lia.
  - reflexivity.
Defined.

Lemma dispatcher_not_implemented_log_witness :
  runState (syscall_dispatcher (kern := counting_kernel) (abi := padded_abi)
              (mkContext 47 1 2 3 4 5)) boot =
  (Returned (mkContext 4294967271 1 2 3 4 5),
   mkWorld 1
     [EvCall sheduler_running_id []; EvLog (LogNotImplemented 47 0);
      EvLog (LogContext 1 2 3 4 5); EvLog (LogReturned 47 1 2 3 4 5 4294967271)])
  /\ runState (syscall_dispatcher (kern := counting_kernel) (abi := padded_abi)
                 (mkContext 48 1 2 3 4 5)) boot =
     (OutOfBounds (mkContext 4294967271 1 2 3 4 5) 48,
      mkWorld 1
        [EvCall sheduler_running_id []; EvLog (LogUnknown 48 0);
         EvLog (LogContext 1 2 3 4 5)]).
Proof.
  split.
  - apply (dispatcher_not_implemented_log (kern := counting_kernel) (abi := padded_abi)
             (mkContext 47 1 2 3 4 5) boot).
    + reflexivity.
    + rewrite half_modulus_eq. cbn. lia.
    + unfold in_enumeration. cbn. lia.
    + reflexivity.
  - apply (dispatcher_not_implemented_log (kern := counting_kernel) (abi := padded_abi)
             (mkContext 48 1 2 3 4 5) boot).
    + reflexivity.
    + rewrite half_modulus_eq. cbn. lia.
    + unfold in_enumeration. cbn. lia.
Defined.

Lemma handlers_keep_critical_sections_witness :
  exists events,
    trace (snd (runState (sys_process_cancel (kern := counting_kernel) 7) boot)) =
    trace boot ++ events
    /\ atomic_sections false events = Some false.
Proof.
  apply (handlers_keep_critical_sections (kern := counting_kernel) (abi := sample_abi)
           SYS_PROCESS_CANCEL (fun a _ _ _ _ => sys_process_cancel (kern := counting_kernel) a) 7 0 0 0 0 boot).
  cbn. do 3 right. left. reflexivity.
Defined.

(** The record of [sys_process_cancel], and a record the scan refuses. *)
Example cancel_record :
  trace (snd (runState (sys_process_cancel (kern := counting_kernel) 7) boot)) =
  [EvCall atomic_begin []; EvCall task_getbyid [W 7];
   EvCall task_cancel [W 1; W (-1)]; EvCall atomic_end []]
  /\ atomic_sections false [EvCall task_getbyid [W 7]; EvCall task_cancel [W 1; W (-1)]]
     = None.
Proof. split; reflexivity. Qed.


Example rename_record :
  trace (snd (runState (sys_filesystem_rename (kern := counting_kernel) 0x400000 0x500000)
                       boot)) =
  [EvCall sheduler_running []; EvCall task_cwd_resolve [W 0; W 0x400000];
   EvCall sheduler_running []; EvCall task_cwd_resolve [W 2; W 0x500000];
   EvCall filesystem_rename [W 1; W 3];
   EvCall path_delete [W 1]; EvCall path_delete [W 3]].
Proof. reflexivity. Qed.


Lemma select_count_wraps_witness :
  exists t,
    trace (snd (runState (sys_handle_select (kern := counting_kernel) (abi := sample_abi)
                            0x400000 0x500000 (2 + 1 * 2 ^ 30) 0x600000) boot)) =
    trace boot ++ [EvCall sheduler_running [];
                   EvCall task_fshandle_select
                     [W t; W 0x400000; W 0x500000; W (2 + 1 * 2 ^ 30); W 0x600000]].
Proof.
  apply (select_count_wraps (kern := counting_kernel) (abi := sample_abi)
           0x400000 0x500000 2 0x600000 1 boot); reflexivity.
Defined.

(** * Properties of the dialog layer *)

Section DialogLayerProperties.

Import DialogLayer.

Context {Node Rect Event : Type}.

Local Abbreviation layer := (@DialogLayer.t Node).
Local Abbreviation effects := (list (@DialogLayer.effect Node Rect Event)).
Local Abbreviation calls := (list (@DialogLayer.call Node Rect Event)).
Local Abbreviation create := (@DialogLayer.create Node Rect Event).

Lemma attached_app (a b : effects) :
  attached (a ++ b) = attached a + attached b.
Proof.
  induction a as [| e a IH]; [reflexivity |].
  destruct e; cbn [app attached]; rewrite IH; lia.
Qed.

(** One call on a layer whose pending close has a dialog: it does not
    panic, it keeps that property, and it attaches and detaches in step
    with the dialog becoming visible or not. *)
Lemma step_sound (c : @DialogLayer.call Node Rect Event) (s : layer) :
  close_has_dialog s ->
  exists s' done,
    step c s = Some (s', done)
    /\ close_has_dialog s'
    /\ _child s' = _child s
    /\ attached done =
       (if visible s' then 1 else 0) - (if visible s then 1 else 0).
Proof.
  intros Hwf. destruct s as [child dialog pending closing].
  unfold close_has_dialog in *. cbn in Hwf.
  destruct c as [d | | r | e]; cbn.
  - eexists. eexists. split; [reflexivity |]. cbn.
    split; [exact Hwf |]. split; [reflexivity |]. destruct dialog; reflexivity.
  - destruct dialog as [d |]; cbn.
    + eexists. eexists. split; [reflexivity |]. cbn.
      split; [intros _; discriminate |]. split; reflexivity.
    + eexists. eexists. split; [reflexivity |]. cbn.
      split; [exact Hwf |]. split; reflexivity.
  - unfold layout, layout_close, layout_show. cbn.
    destruct closing; destruct dialog as [d |]; destruct pending as [n |]; cbn;
      try (exfalso; apply Hwf; reflexivity);
      (eexists; eexists; split; [reflexivity |]; cbn;
       split; [intros H; discriminate H |]; split; reflexivity).
  - eexists. eexists. split; [reflexivity |]. cbn.
    split; [exact Hwf |]. split; [reflexivity |]. destruct dialog; cbn; lia.
Qed.

Lemma run_sound (cs : calls) (s : layer) :
  close_has_dialog s ->
  exists s' done,
    run cs s = Some (s', done)
    /\ close_has_dialog s'
    /\ _child s' = _child s
    /\ attached done =
       (if visible s' then 1 else 0) - (if visible s then 1 else 0).
Proof.
  revert s. induction cs as [| c cs IH]; intros s Hwf.
  - exists s, []. cbn. repeat split; [exact Hwf | destruct (visible s); lia].
  - destruct (step_sound c s Hwf) as [s1 [e1 [Hstep [Hwf1 [Hchild1 Hatt1]]]]].
    destruct (IH s1 Hwf1) as [s2 [e2 [Hrun [Hwf2 [Hchild2 Hatt2]]]]].
    exists s2, (e1 ++ e2). cbn. rewrite Hstep, Hrun.
    split; [reflexivity |]. split; [exact Hwf2 |].
    split; [congruence |]. rewrite attached_app. lia.
Qed.

Lemma run_app (a b : calls) (s : layer) :
  run (a ++ b) s =
  match run a s with
  | None => None
  | Some (s1, e1) =>
      match run b s1 with
      | None => None
      | Some (s2, e2) => Some (s2, e1 ++ e2)
      end
  end.
Proof.
  revert s. induction a as [| c a IH]; intros s; cbn.
  - destruct (run b s) as [[s2 e2] |]; reflexivity.
  - destruct (step c s) as [[s1 e1] |]; [| reflexivity].
    rewrite IH. destruct (run a s1) as [[s2 e2] |]; [| reflexivity].
    destruct (run b s2) as [[s3 e3] |]; [| reflexivity].
    rewrite app_assoc. reflexivity.
Qed.

Lemma create_sound (child : Node) :
  close_has_dialog (fst (create child)).
Proof. unfold close_has_dialog. cbn. intros H. discriminate H. Qed.

(** X13.  No sequence of [show], [close], [layout] and [event] calls on a
    newly constructed layer makes [layout] dereference an empty [_dialog]:
    a close is pending only while a dialog is shown. *)
Theorem dialog_layer_never_panics (child : Node) (cs : calls) :
  exists s done,
    run cs (fst (create child)) = Some (s, done) /\ close_has_dialog s.
Proof.
  destruct (run_sound cs _ (create_sound child)) as [s [done [Hrun [Hwf _]]]].
  exists s, done. split; assumption.
Qed.

(** X14.  From construction to destruction the layer detaches exactly as
    often as it attaches: at any moment the attach calls exceed the detach
    calls by one for the child plus one while a dialog is shown, and the
    destructor brings the difference to zero. *)
Theorem dialog_layer_attach_balance (child : Node) (cs : calls) (s : layer)
        (done : effects) :
  run cs (fst (create child)) = Some (s, done) ->
  attached (snd (create child) ++ done) = 1 + (if visible s then 1 else 0)
  /\ attached (snd (create child) ++ done ++ destroy s) = 0.
Proof.
  intros Hrun.
  destruct (run_sound cs _ (create_sound child)) as [s' [done' [Hrun' [_ [_ Hatt]]]]].
  rewrite Hrun in Hrun'. injection Hrun' as <- <-.
  assert (Hnow : attached (snd (create child) ++ done) =
                 1 + (if visible s then 1 else 0)).
  { rewrite attached_app, Hatt. unfold DialogLayer.create.
    cbn [attached visible fst snd _dialog]. destruct (visible s); lia. }
  split; [exact Hnow |].
  rewrite app_assoc, attached_app, Hnow.
  unfold destroy, visible. destruct (_dialog s); cbn; lia.
Qed.

(** Closing again and again before the next layout changes neither the
    shown dialog nor the pending show, and makes no attach or detach
    call. *)
Lemma closes_keep_dialog (n : nat) (s : layer) :
  close_has_dialog s ->
  exists s1 (done1 : effects),
    run (repeat (Close (Node := Node) (Rect := Rect) (Event := Event)) n) s =
      Some (s1, done1)
    /\ close_has_dialog s1
    /\ _child s1 = _child s
    /\ _dialog s1 = _dialog s
    /\ _shouldShow s1 = _shouldShow s
    /\ existsb attaches done1 = false.
Proof.
  revert s. induction n as [| n IH]; intros s Hwf.
  - exists s, []. cbn. repeat split. exact Hwf.
  - assert (Hwf1 : close_has_dialog (fst (close (Rect := Rect) (Event := Event) s))).
    { unfold close_has_dialog, close in *.
      destruct (_dialog s) eqn:Hd; cbn; [intros _; discriminate |].
      rewrite Hd. exact Hwf. }
    destruct (IH _ Hwf1) as [s1 [done1 [Hrun [Hwf' [Hc [Hd [Hs Hatt]]]]]]].
    exists s1, (snd (close s) ++ done1).
    cbn [repeat run step]. destruct (close s) as [s0 done0] eqn:Hclose.
    cbn [fst snd] in *. rewrite Hrun.
    split; [reflexivity |]. split; [exact Hwf' |].
    unfold close in Hclose.
    destruct (_dialog s) eqn:Hds; injection Hclose as <- <-;
      cbn in Hc, Hd, Hs |- *; rewrite ?Hatt;
      repeat split; congruence.
Qed.

(** A list of effects without attach and detach calls leaves the balance
    of the two at zero. *)
Lemma attached_none (done : effects) :
  existsb attaches done = false -> attached done = 0.
Proof.
  induction done as [| e done IH]; [reflexivity |].
  destruct e; cbn [existsb attaches orb attached]; intros H;
    first [discriminate H | exact (IH H)].
Qed.

(** X15.  [show] is deferred and wins: after [show(d)], followed by any
    number of [close] calls, the dialog on screen is still the old one and
    no attach or detach call was made; the next [layout] then shows [d] and
    leaves no request pending. *)
Theorem dialog_show_deferred_and_wins (s : layer) (d : Node) (n : nat) (r : Rect) :
  close_has_dialog s ->
  exists s1 (done1 : effects) s2 (done2 : effects),
    run (Show d :: repeat Close n) s = Some (s1, done1)
    /\ _dialog s1 = _dialog s
    /\ existsb attaches done1 = false
    /\ attached done1 = 0
    /\ layout r s1 = Some (s2, done2)
    /\ _dialog s2 = Some d
    /\ _shouldShow s2 = None
    /\ _shouldClose s2 = false.
Proof.
  intros Hwf. destruct s as [child dialog pending closing].
  assert (Hwf0 : close_has_dialog
                   (fst (show (Rect := Rect) (Event := Event) d
                           (mk child dialog pending closing))))
    by exact Hwf.
  destruct (closes_keep_dialog n _ Hwf0)
    as [s1 [done1 [Hrun [Hwf1 [_ [Hd [Hs Hatt]]]]]]].
  cbn [show fst _child _dialog _shouldShow _shouldClose] in Hd, Hs, Hrun.
  destruct s1 as [child1 dialog1 pending1 closing1]. cbn in Hd, Hs. subst.
  unfold close_has_dialog in Hwf1. cbn in Hwf1.
  assert (Hnone : existsb attaches
                    ([ShouldLayout; Animate 1] ++ done1 : effects) = false).
  { rewrite existsb_app, Hatt. reflexivity. }
  destruct closing1; destruct dialog as [d0 |];
    try (exfalso; apply Hwf1; reflexivity);
    (eexists; eexists; eexists; eexists;
     split; [cbn [run step show _child _dialog _shouldShow _shouldClose];
             rewrite Hrun; reflexivity |];
     split; [reflexivity |];
     split; [exact Hnone |];
     split; [exact (attached_none _ Hnone) |];
     unfold layout, layout_close, layout_show; cbn;
     repeat split; reflexivity).
Qed.

(** X16.  With a dialog [d] on screen and no show pending, [close] followed
    by [layout] detaches [d], once, and lays out the child alone; the next
    event goes to the child. *)
Theorem dialog_close_then_layout (s : layer) (d : Node) (r : Rect) (e : Event) :
  _dialog s = Some d -> _shouldShow s = None ->
  run [Close; Layout r; Deliver e] s =
  Some (mk (_child s) None None false,
        [ShouldLayout; Animate 0; Detach d; NodeLayout (_child s) r;
         AnimEvent e; NodeEvent (_child s) e]).
Proof.
  intros Hd Hs. destruct s as [child dialog pending closing].
  cbn in Hd, Hs. subst. reflexivity.
Qed.

(** X17.  [layout] consumes the requests: after a [layout] that did not
    panic nothing is pending, and a second [layout] leaves the layer as it
    is, attaching and detaching nothing. *)
Theorem dialog_layout_settles (s s1 : layer) (r r' : Rect) (done : effects) :
  layout r s = Some (s1, done) ->
  _shouldShow s1 = None
  /\ _shouldClose s1 = false
  /\ layout r' s1 =
     Some (s1, (NodeLayout (_child s1) r' ::
                match _dialog s1 with
                | Some d => [NodeLayout d r']
                | None => []
                end : effects)).
Proof.
  destruct s as [child dialog pending closing].
  unfold layout, layout_close, layout_show. cbn.
  destruct closing; destruct dialog as [d |]; destruct pending as [n |]; cbn;
    intros H; try discriminate H; injection H as <- <-; cbn;
    repeat split; reflexivity.
Qed.

End DialogLayerProperties.

(** * Properties of widget sizing and placement *)

Section WidgetProperties.

Import Widget.

Variable klass_size : Z -> option (Widget -> Vec2i).
Variable rectangle_shrink : Rectangle -> Insets -> Rectangle.
Variable rectangle_containe_point : Rectangle -> Vec2i -> bool.
Variable dimension_invert_xy : Dimension -> Dimension.
Variable klass_layout : Z -> option (Widget -> Widget).
Variable LAYOUT_FILL : Z.

Lemma to_s32_small (z : Z) : is_int z -> to_s32 z = z.
Proof.
  intros Hz. rewrite <- (to_s32_to_u32 z Hz) at 2.
  unfold to_s32, to_u32. rewrite Z.mod_mod by (rewrite modulus_eq; lia).
  reflexivity.
Qed.

Lemma MAX_spec (a b : Z) : MAX a b = Z.max a b.
Proof. unfold MAX. destruct (Z.gtb_spec a b); lia. Qed.

Lemma MIN_spec (a b : Z) : MIN a b = Z.min a b.
Proof. unfold MIN. destruct (Z.ltb_spec a b); lia. Qed.

(** X18.  For a widget whose class has no size function, the computed size
    obeys the widget's constraints, a constraint of 0 meaning none: the
    width is at least a set minimum, and at most a set maximum unless a
    larger minimum is set as well, in which case the minimum wins; the same
    holds for the height. *)
Theorem compute_size_constraints (widget : Widget) :
  klass_size (klass widget) = None ->
  (min_width widget <> 0 ->
   min_width widget <= x (widget_compute_size klass_size widget))
  /\ (max_width widget <> 0 ->
      min_width widget = 0 \/ min_width widget <= max_width widget ->
      x (widget_compute_size klass_size widget) <= max_width widget)
  /\ (max_width widget <> 0 -> min_width widget <> 0 ->
      max_width widget < min_width widget ->
      x (widget_compute_size klass_size widget) = min_width widget)
  /\ (min_height widget <> 0 ->
      min_height widget <= y (widget_compute_size klass_size widget))
  /\ (max_height widget <> 0 ->
      min_height widget = 0 \/ min_height widget <= max_height widget ->
      y (widget_compute_size klass_size widget) <= max_height widget)
  /\ (max_height widget <> 0 -> min_height widget <> 0 ->
      max_height widget < min_height widget ->
      y (widget_compute_size klass_size widget) = min_height widget).
Proof.
  intros Hhook.
  destruct widget as [k b i l a xw xh nw nh children].
  cbn [klass] in Hhook. cbn [widget_compute_size klass]. rewrite Hhook.
  unfold size_from_children.
  cbn [max_width max_height min_width min_height layout insets bound].
  destruct (match type l with
            | LAYOUT_STACK => _
            | _ => _
            end) as [width0 height0].
  cbn [x y].
  destruct (Z.eqb_spec xw 0); destruct (Z.eqb_spec nw 0);
    destruct (Z.eqb_spec xh 0); destruct (Z.eqb_spec nh 0);
    cbv iota; rewrite ?MAX_spec, ?MIN_spec;
    repeat split; intros; lia.
Qed.

(** X19.  A horizontal flow or grid without children, without a size
    function and without width constraints is as wide as its left and right
    insets minus one horizontal spacing: the spacing between children is
    counted [count - 1] times also when the count is 0.  (The sums are
    assumed to fit an [int].) *)
Theorem compute_size_childless_horizontal (widget : Widget) :
  klass_size (klass widget) = None ->
  childs widget = [] ->
  horizontal (type (layout widget)) = true ->
  max_width widget = 0 -> min_width widget = 0 ->
  is_int (- x (spacing (layout widget))) ->
  is_int (left (insets widget) - x (spacing (layout widget))) ->
  is_int (left (insets widget) + right (insets widget)
          - x (spacing (layout widget))) ->
  x (widget_compute_size klass_size widget) =
  left (insets widget) + right (insets widget) - x (spacing (layout widget)).
Proof.
  intros Hhook Hchilds Hflow Hmax Hmin H1 H2 H3.
  destruct widget as [k b i l a xw xh nw nh children].
  cbn [klass childs layout max_width min_width insets] in *. subst.
  cbn [widget_compute_size klass map]. rewrite Hhook.
  unfold size_from_children.
  cbn [max_width max_height min_width min_height layout insets bound
       List.length Z.of_nat fold_left].
  assert (Hone : isub 0 1 = -1) by reflexivity.
  assert (Hgap : imul (x (spacing l)) (isub 0 1) = - x (spacing l)).
  { rewrite Hone. unfold imul.
    replace (x (spacing l) * -1) with (- x (spacing l)) by lia.
    apply to_s32_small. exact H1. }
  assert (Hw0 : iadd 0 (imul (x (spacing l)) (isub 0 1)) = - x (spacing l)).
  { rewrite Hgap. unfold iadd. cbn [Z.add]. apply to_s32_small. exact H1. }
  assert (Hsum : iadd (iadd (- x (spacing l)) (left i)) (right i) =
                 left i + right i - x (spacing l)).
  { unfold iadd.
    replace (- x (spacing l) + left i) with (left i - x (spacing l)) by lia.
    rewrite (to_s32_small _ H2).
    replace (left i - x (spacing l) + right i)
      with (left i + right i - x (spacing l)) by lia.
    apply to_s32_small. exact H3. }
  destruct (type l); try discriminate Hflow;
    cbn [horizontal vertical fst snd]; rewrite Hw0; cbn [x y Z.eqb];
    exact Hsum.
Qed.

Lemma component_set_same (d : Dimension) (v : Vec2i) (z : Z) :
  component d (set_component d v z) = z.
Proof. destruct d; reflexivity. Qed.

Lemma component_set_other (d d' : Dimension) (v : Vec2i) (z : Z) :
  d' <> d -> component d (set_component d' v z) = component d v.
Proof. destruct d; destruct d'; intros H; try reflexivity; contradiction. Qed.

(** The loop of the grid placement, from any point on: with [k] children
    left, a child size [q] of at least 1 and [r] children still to be
    grown by one, the children tile the stretch of length
    [k * q + r + (k - 1) * gap] that begins at [current]. *)
Lemma vhgrid_place_tiles (content : Rectangle) (gap : Z) (dim ivdim : Dimension)
      (q : Z) (children : list Widget) :
  ivdim <> dim -> 1 <= q -> 0 <= gap -> q + 1 + gap < half_modulus ->
  forall r current,
    children <> [] ->
    0 <= r <= Z.of_nat (List.length children) ->
    is_int current ->
    current + Z.of_nat (List.length children) * (q + gap) + r < half_modulus ->
    tiles dim gap current
      (current + Z.of_nat (List.length children) * q + r
       + (Z.of_nat (List.length children) - 1) * gap)
      (vhgrid_place content gap dim ivdim q r current children)
    /\ Forall (fun c =>
                 component ivdim (position (bound c)) =
                   component ivdim (position content)
                 /\ component ivdim (size (bound c)) =
                    component ivdim (size content)
                 /\ q <= component dim (size (bound c)) <= q + 1)
              (vhgrid_place content gap dim ivdim q r current children).
Proof.
  intros Hdim Hq Hgap Hsmall.
  induction children as [| child rest IH]; intros r current Hne Hr Hcur Hend;
    [contradiction |].
  cbn [vhgrid_place]. rewrite MAX_spec, Z.max_r by lia.
  assert (Hgrow : (if r >? 0 then iadd q 1 else q) = q + (if r >? 0 then 1 else 0)).
  { destruct (r >? 0); [| lia]. unfold iadd. apply to_s32_small.
    unfold is_int. lia. }
  assert (Hprod : Z.of_nat (List.length (child :: rest)) <=
                  Z.of_nat (List.length (child :: rest)) * (q + gap)) by nia.
  assert (Hleft : (if r >? 0 then isub r 1 else r) = r - (if r >? 0 then 1 else 0)).
  { destruct (Z.gtb_spec r 0); [| lia]. unfold isub. apply to_s32_small.
    unfold is_int in *. rewrite half_modulus_eq in *. lia. }
  rewrite Hgrow, Hleft.
  set (grow := if r >? 0 then 1 else 0).
  assert (Hgrow01 : grow = 0 /\ r <= 0 \/ grow = 1 /\ 0 < r).
  { unfold grow. destruct (Z.gtb_spec r 0); lia. }
  assert (Hnext : iadd current (iadd (q + grow) gap) = current + (q + grow) + gap).
  { unfold iadd. rewrite (to_s32_small (q + grow + gap))
      by (unfold is_int; rewrite half_modulus_eq in *; lia).
    replace (current + (q + grow + gap)) with (current + (q + grow) + gap) by lia.
    apply to_s32_small. unfold is_int in *. cbn [List.length] in Hend.
    rewrite Nat2Z.inj_succ in Hend. rewrite half_modulus_eq in *. nia. }
  rewrite Hnext.
  cbn [List.length] in *. rewrite Nat2Z.inj_succ in *.
  assert (Hbound :
    forall b,
      bound (set_bound child b) = b).
  { intros b. destruct child. reflexivity. }
  split.
  - cbn [tiles]. rewrite Hbound. cbn [position size].
    rewrite component_set_other by exact Hdim.
    rewrite !component_set_same.
    rewrite component_set_other by exact Hdim.
    rewrite component_set_same.
    split; [reflexivity |]. split; [lia |].
    destruct rest as [| child' rest'].
    + cbn [vhgrid_place List.length Z.of_nat] in *. lia.
    + destruct (IH (r - grow) (current + (q + grow) + gap)) as [Htiles _].
      * discriminate.
      * cbn [List.length] in *. rewrite Nat2Z.inj_succ in *. lia.
      * unfold is_int in *. rewrite half_modulus_eq in *. nia.
      * cbn [List.length] in *. rewrite Nat2Z.inj_succ in *. nia.
      * remember (child' :: rest') as tail eqn:Htail.
        assert (Hshape : exists c t, vhgrid_place content gap dim ivdim q (r - grow)
                           (current + (q + grow) + gap) tail = c :: t).
        { rewrite Htail. cbn [vhgrid_place]. eexists. eexists. reflexivity. }
        destruct Hshape as [c [t Hshape]]. rewrite Hshape in *.
        replace (current + Z.succ (Z.of_nat (List.length tail)) * q + r +
                 (Z.succ (Z.of_nat (List.length tail)) - 1) * gap)
          with (current + (q + grow) + gap + Z.of_nat (List.length tail) * q
                + (r - grow) + (Z.of_nat (List.length tail) - 1) * gap)
          by lia.
        exact Htiles.
  - constructor.
    + rewrite Hbound. cbn [position size].
      rewrite !component_set_same.
      rewrite component_set_other by exact Hdim.
      rewrite component_set_same.
      repeat split; lia.
    + destruct rest as [| child' rest']; [constructor |].
      destruct (IH (r - grow) (current + (q + grow) + gap)) as [_ Hall].
      * discriminate.
      * cbn [List.length] in *. rewrite Nat2Z.inj_succ in *. lia.
      * unfold is_int in *. rewrite half_modulus_eq in *. nia.
      * cbn [List.length] in *. rewrite Nat2Z.inj_succ in *. nia.
      * exact Hall.
Qed.

(** X20.  [widget_do_vhgrid_layout] fills the content area exactly along
    its dimension when every child can get at least one unit: the first
    child begins where the content begins, neighbours are one spacing
    apart, the last child ends where the content ends, the children's
    lengths are the quotient or the quotient plus one, and across the
    dimension every child takes the position and the length of the content
    area.  (The extents are assumed small enough for [int].) *)
Theorem vhgrid_layout_fills_content
        (widget : Widget) (layout : Layout) (dim : Dimension)
        (content : Rectangle) (n gap : Z) :
  content = widget_get_content_bound rectangle_shrink widget ->
  n = Z.of_nat (List.length (childs widget)) ->
  gap = component dim (spacing layout) ->
  dimension_invert_xy dim <> dim ->
  1 <= n ->
  0 <= gap ->
  n + gap * (n - 1) <= component dim (size content) ->
  component dim (size content) + gap + 1 < half_modulus ->
  is_int (component dim (position content)) ->
  component dim (position content) + component dim (size content) + gap
    < half_modulus ->
  exists placed,
    widget_do_vhgrid_layout rectangle_shrink dimension_invert_xy widget layout dim
      = Some placed
    /\ tiles dim gap (component dim (position content))
             (component dim (position content) + component dim (size content))
             placed
    /\ Forall (fun c =>
                 component (dimension_invert_xy dim) (position (bound c)) =
                   component (dimension_invert_xy dim) (position content)
                 /\ component (dimension_invert_xy dim) (size (bound c)) =
                    component (dimension_invert_xy dim) (size content)
                 /\ (component dim (size content) - gap * (n - 1)) / n
                    <= component dim (size (bound c))
                    <= (component dim (size content) - gap * (n - 1)) / n + 1)
              placed.
Proof.
  intros Hcontent Hn Hgapdef Hdim Hn1 Hgap Hfit Hsmall Hpos Hend.
  unfold widget_do_vhgrid_layout. rewrite <- Hcontent, <- Hn, <- Hgapdef.
  set (extent := component dim (size content)) in *.
  set (origin := component dim (position content)) in *.
  rewrite half_modulus_eq in *.
  assert (Hgaps_nonneg : 0 <= gap * (n - 1)) by nia.
  assert (H1 : isub n 1 = n - 1).
  { unfold isub. apply to_s32_small. unfold is_int. rewrite half_modulus_eq. lia. }
  rewrite !H1.
  assert (H2 : imul gap (n - 1) = gap * (n - 1)).
  { unfold imul. apply to_s32_small. unfold is_int. rewrite half_modulus_eq. lia. }
  rewrite !H2.
  set (a := extent - gap * (n - 1)).
  assert (H3 : isub extent (gap * (n - 1)) = a).
  { unfold isub. apply to_s32_small. unfold is_int, a. rewrite half_modulus_eq. lia. }
  rewrite !H3.
  assert (Hquot : Z.quot a n = a / n)
    by (apply Z.quot_div_nonneg; unfold a; lia).
  pose proof (Z.div_mod a n ltac:(lia)) as Hdivmod.
  pose proof (Z.mod_pos_bound a n ltac:(lia)) as Hmod.
  assert (Hq1 : 1 <= a / n).
  { apply Z.div_le_lower_bound; unfold a; lia. }
  assert (Hqa : a / n <= a) by nia.
  assert (H4 : idiv a n = Some (a / n)).
  { unfold idiv, traps.
    replace (n =? 0) with false by (symmetry; apply Z.eqb_neq; lia).
    replace (n =? -1) with false by (symmetry; apply Z.eqb_neq; lia).
    rewrite andb_false_r. cbn [orb]. rewrite Hquot. f_equal.
    apply to_s32_small. unfold is_int, a in *. rewrite half_modulus_eq. lia. }
  rewrite !H4.
  assert (H5 : imul (a / n) n = a / n * n).
  { unfold imul. apply to_s32_small. unfold is_int, a in *.
    rewrite half_modulus_eq. nia. }
  rewrite !H5.
  assert (H6 : iadd (a / n * n) (gap * (n - 1)) = a / n * n + gap * (n - 1)).
  { unfold iadd. apply to_s32_small. unfold is_int, a in *.
    rewrite half_modulus_eq. nia. }
  rewrite !H6.
  assert (H7 : isub extent (a / n * n + gap * (n - 1)) = a mod n).
  { unfold isub. replace (extent - (a / n * n + gap * (n - 1))) with (a mod n)
      by (unfold a in *; lia).
    apply to_s32_small. unfold is_int. rewrite half_modulus_eq. lia. }
  rewrite !H7.
  eexists. split; [reflexivity |].
  assert (Hne : childs widget <> []).
  { intros Hnil. rewrite Hnil in Hn. cbn in Hn. lia. }
  destruct (vhgrid_place_tiles content gap dim (dimension_invert_xy dim) (a / n)
              (childs widget) Hdim Hq1 Hgap
              ltac:(rewrite half_modulus_eq; unfold a in *; lia)
              (a mod n) origin Hne)
    as [Htiles Hall].
  - rewrite <- Hn. lia.
  - exact Hpos.
  - rewrite <- Hn, half_modulus_eq. unfold a in *. nia.
  - rewrite <- Hn in Htiles.
    replace (origin + n * (a / n) + a mod n + (n - 1) * gap)
      with (origin + extent) in Htiles by (unfold a in *; lia).
    split; [exact Htiles | exact Hall].
Qed.

(** Induction over a widget tree: a property that holds of a widget
    whenever it holds of all its children holds of every widget. *)
Lemma Widget_tree_ind (P : Widget -> Prop) :
  (forall k b i l a xw xh nw nh children,
      Forall P children -> P (mkWidget k b i l a xw xh nw nh children)) ->
  forall w, P w.
Proof.
  intros step. fix IH 1. intros [k b i l a xw xh nw nh children].
  apply step. revert children. fix IHchildren 1.
  intros [| c rest]; constructor; [apply IH | apply IHchildren].
Qed.

(** X21.  [widget_get_child_at] descends from the parent through widgets
    whose bounds contain the position, and stops at a widget none of whose
    children contains it: the answer is the parent itself or a descendant
    under the position, and it is always the deepest one on its path. *)
Theorem get_child_at_deepest (parent : Widget) (p : Vec2i) :
  found_under rectangle_containe_point p parent
    (widget_get_child_at rectangle_containe_point parent p)
  /\ forall c,
       In c (childs (widget_get_child_at rectangle_containe_point parent p)) ->
       rectangle_containe_point (widget_get_bound c) p = false.
Proof.
  induction parent as [k b i l a xw xh nw nh children IH] using Widget_tree_ind.
  cbn [widget_get_child_at].
  set (root := mkWidget k b i l a xw xh nw nh children).
  assert (Hsuffix :
    forall before rest,
      children = before ++ rest ->
      Forall (fun c => rectangle_containe_point (widget_get_bound c) p = false)
             before ->
      found_under rectangle_containe_point p root
        ((fix first_hit (cs : list Widget) : Widget :=
            match cs with
            | [] => root
            | child :: rest' =>
                if rectangle_containe_point (widget_get_bound child) p
                then widget_get_child_at rectangle_containe_point child p
                else first_hit rest'
            end) rest)
      /\ forall c,
           In c (childs
                   ((fix first_hit (cs : list Widget) : Widget :=
                       match cs with
                       | [] => root
                       | child :: rest' =>
                           if rectangle_containe_point (widget_get_bound child) p
                           then widget_get_child_at rectangle_containe_point child p
                           else first_hit rest'
                       end) rest)) ->
           rectangle_containe_point (widget_get_bound c) p = false).
  { intros before rest. revert before.
    induction rest as [| child rest IHrest]; intros before Hsplit Hmiss.
    - split; [apply found_here |].
      rewrite app_nil_r in Hsplit. subst before.
      intros c Hin. cbn [childs root] in Hin.
      rewrite Forall_forall in Hmiss. apply Hmiss. exact Hin.
    - destruct (rectangle_containe_point (widget_get_bound child) p) eqn:Hhit.
      + assert (Hin : In child children)
          by (rewrite Hsplit; apply in_or_app; right; left; reflexivity).
        rewrite Forall_forall in IH. destruct (IH child Hin) as [Hfound Hdeep].
        split; [| exact Hdeep].
        apply (found_below _ _ _ child); [exact Hin | exact Hhit | exact Hfound].
      + apply (IHrest (before ++ [child])).
        * rewrite <- app_assoc. exact Hsplit.
        * apply Forall_app. split; [exact Hmiss |].
          constructor; [exact Hhit | constructor]. }
  apply (Hsuffix [] children); [reflexivity | constructor].
Qed.

(** ** [widget_layout] *)

Local Abbreviation layout_in :=
  (Widget.layout_in klass_size rectangle_shrink dimension_invert_xy
     klass_layout LAYOUT_FILL).
Local Abbreviation place_children :=
  (Widget.place_children klass_size rectangle_shrink dimension_invert_xy LAYOUT_FILL).
Local Abbreviation widget_layout :=
  (Widget.widget_layout klass_size rectangle_shrink dimension_invert_xy
     klass_layout LAYOUT_FILL).

Lemma vhgrid_place_length content gap dim ivdim q r current children :
  List.length (vhgrid_place content gap dim ivdim q r current children) =
  List.length children.
Proof.
  revert r current. induction children as [| c rest IH]; intros r current;
    [reflexivity |].
  cbn [vhgrid_place List.length]. rewrite IH. reflexivity.
Qed.

Lemma grid_place_length ox oy cw ch sp hc index children bounds :
  grid_place ox oy cw ch sp hc index children = Some bounds ->
  List.length bounds = List.length children.
Proof.
  revert index bounds.
  induction children as [| c rest IH]; intros index bounds H.
  - injection H as <-. reflexivity.
  - cbn [grid_place] in H.
    destruct (irem index hc); [| discriminate H].
    destruct (idiv index hc); [| discriminate H].
    destruct (grid_place ox oy cw ch sp hc (iadd index 1) rest) as [placed |] eqn:Hrest;
      [| discriminate H].
    cbn [option_map] in H. injection H as <-.
    cbn [List.length]. f_equal. apply (IH _ _ Hrest).
Qed.

Lemma hflow_place_length content sp fw current children :
  List.length (hflow_place klass_size LAYOUT_FILL content sp fw current children) =
  List.length children.
Proof.
  revert current. induction children as [| c rest IH]; intros current;
    [reflexivity |].
  cbn [hflow_place]. destruct (fills LAYOUT_FILL c); cbv zeta;
    cbn [List.length]; rewrite IH; reflexivity.
Qed.

Lemma vflow_place_length content sp fh current children :
  List.length (vflow_place klass_size LAYOUT_FILL content sp fh current children) =
  List.length children.
Proof.
  revert current. induction children as [| c rest IH]; intros current;
    [reflexivity |].
  cbn [vflow_place]. destruct (fills LAYOUT_FILL c); cbv zeta;
    cbn [List.length]; rewrite IH; reflexivity.
Qed.

(** The switch gives every child a bound. *)
Lemma place_children_length (widget : Widget) (bounds : list Rectangle) :
  place_children widget = Some bounds ->
  List.length bounds = List.length (childs widget).
Proof.
  unfold Widget.place_children, widget_do_vhgrid_layout.
  destruct (type (layout widget)).
  - intros H. injection H as <-. apply length_map.
  - destruct (idiv _ (hcell (layout widget))); [| intros H; discriminate H].
    destruct (idiv _ (vcell (layout widget))); [| intros H; discriminate H].
    apply grid_place_length.
  - destruct (idiv _ _); intros H; [| discriminate H].
    cbn [option_map] in H. injection H as <-.
    rewrite length_map. apply vhgrid_place_length.
  - destruct (idiv _ _); intros H; [| discriminate H].
    cbn [option_map] in H. injection H as <-.
    rewrite length_map. apply vhgrid_place_length.
  - destruct (fold_left _ _ _) as [[fc ft] flc].
    destruct (idiv _ _); intros H; [| discriminate H]. injection H as <-.
    apply vflow_place_length.
  - destruct (fold_left _ _ _) as [[fc ft] flc].
    destruct (idiv _ _); intros H; [| discriminate H]. injection H as <-.
    apply hflow_place_length.
  - intros H. injection H as <-. apply length_map.
Qed.

(** The recursion over the children of [layout_in], as a relation between
    the children, their new bounds and the laid-out children. *)
Lemma layout_children_frame (children : list Widget) :
  Forall (fun c => forall b c',
              layout_in b c = Some c' ->
              without_bounds c' = without_bounds c /\ bound c' = b) children ->
  forall bounds placed,
    List.length bounds = List.length children ->
    (fix each (cs : list Widget) (bs : list Rectangle) : option (list Widget) :=
       match cs, bs with
       | child :: cs', b' :: bs' =>
           match layout_in b' child, each cs' bs' with
           | Some child', Some rest => Some (child' :: rest)
           | _, _ => None
           end
       | _, _ => Some []
       end) children bounds = Some placed ->
    map without_bounds placed = map without_bounds children
    /\ map bound placed = bounds.
Proof.
  intros Hall. induction Hall as [| c rest Hc Hrest IH]; intros bounds placed Hlen H.
  - destruct bounds; [| discriminate Hlen]. injection H as <-. split; reflexivity.
  - destruct bounds as [| b' bs']; [discriminate Hlen |].
    destruct (layout_in b' c) as [c' |] eqn:Hlay; [| discriminate H].
    match type of H with
    | match ?e with _ => _ end = _ => destruct e as [rest' |] eqn:Heach
    end; [| discriminate H].
    injection H as <-.
    destruct (Hc b' c' Hlay) as [Hshape Hb].
    cbn [List.length] in Hlen. injection Hlen as Hlen.
    destruct (IH bs' rest' Hlen Heach) as [Hshapes Hbs].
    cbn [map]. rewrite Hshape, Hb, Hshapes, Hbs. split; reflexivity.
Qed.

Lemma layout_in_frame (w : Widget) :
  (forall k, klass_layout k = None) ->
  forall b w',
    layout_in b w = Some w' ->
    without_bounds w' = without_bounds w /\ bound w' = b.
Proof.
  intros Hfree.
  induction w as [k b0 i l a xw xh nw nh children IH] using Widget_tree_ind.
  intros b w' H. cbn [Widget.layout_in] in H. rewrite Hfree in H.
  destruct children as [| c rest].
  - injection H as <-. split; reflexivity.
  - destruct (place_children (mkWidget k b i l a xw xh nw nh (c :: rest)))
      as [bounds |] eqn:Hplace; [| discriminate H].
    apply place_children_length in Hplace. cbn [childs] in Hplace.
    match type of H with
    | option_map _ ?e = _ => destruct e as [placed |] eqn:Heach
    end; [| discriminate H].
    cbn [option_map] in H. injection H as <-.
    destruct (layout_children_frame (c :: rest) IH bounds placed Hplace Heach)
      as [Hshapes _].
    cbn [without_bounds bound]. rewrite Hshapes. split; reflexivity.
Qed.

(** What [widget_layout] gives the children of a widget with children,
    when no class has a layout function: the bounds of the switch. *)
Lemma layout_children_bounds (w w' : Widget) :
  (forall k, klass_layout k = None) ->
  childs w <> [] ->
  widget_layout w = Some w' ->
  place_children w = Some (map bound (childs w')).
Proof.
  intros Hfree Hne H. unfold Widget.widget_layout in H.
  destruct w as [k b i l a xw xh nw nh children].
  cbn [bound childs] in *. cbn [Widget.layout_in] in H. rewrite Hfree in H.
  destruct children as [| c rest]; [contradiction |].
  destruct (place_children (mkWidget k b i l a xw xh nw nh (c :: rest)))
    as [bounds |] eqn:Hplace; [| discriminate H].
  pose proof (place_children_length _ _ Hplace) as Hlen. cbn [childs] in Hlen.
  match type of H with
  | option_map _ ?e = _ => destruct e as [placed |] eqn:Heach
  end; [| discriminate H].
  cbn [option_map] in H. injection H as <-. cbn [childs].
  assert (Hall : Forall (fun c0 => forall b1 c',
              layout_in b1 c0 = Some c' ->
              without_bounds c' = without_bounds c0 /\ bound c' = b1) (c :: rest)).
  { apply Forall_forall. intros c0 _ b1 c'. apply layout_in_frame. exact Hfree. }
  destruct (layout_children_frame (c :: rest) Hall bounds placed Hlen Heach)
    as [_ Hbs].
  rewrite Hbs. reflexivity.
Qed.

(** X22.  In a tree whose classes have no layout function, a
    [widget_layout] that completes changes nothing but the bounds of the
    descendants: the widget keeps its own bound, and the tree keeps its
    shape, with every child in place and every inset, layout, attribute
    and size constraint as before. *)
Theorem layout_changes_only_descendant_bounds (w w' : Widget) :
  (forall k, klass_layout k = None) ->
  widget_layout w = Some w' ->
  without_bounds w' = without_bounds w /\ bound w' = bound w.
Proof.
  intros Hfree H. apply (layout_in_frame w Hfree (bound w) w' H).
Qed.

(** X23.  [LAYOUT_STACK] gives every child the whole content area of its
    parent (in a tree whose classes have no layout function). *)
Theorem layout_stack_fills (w w' : Widget) :
  (forall k, klass_layout k = None) ->
  type (layout w) = LAYOUT_STACK ->
  childs w <> [] ->
  widget_layout w = Some w' ->
  List.length (childs w') = List.length (childs w)
  /\ Forall (fun c => bound c = widget_get_content_bound rectangle_shrink w)
            (childs w').
Proof.
  intros Hfree Hstack Hne H.
  pose proof (layout_children_bounds w w' Hfree Hne H) as Hplace.
  pose proof (place_children_length _ _ Hplace) as Hlen.
  rewrite length_map in Hlen. split; [exact Hlen |].
  unfold Widget.place_children in Hplace. rewrite Hstack in Hplace.
  injection Hplace as Hbounds.
  apply Forall_forall. intros c Hin.
  apply (in_map bound) in Hin. rewrite <- Hbounds in Hin.
  apply in_map_iff in Hin. destruct Hin as [c0 [Heq _]]. symmetry. exact Heq.
Qed.

Local Abbreviation fills := (Widget.fills LAYOUT_FILL).
Local Abbreviation fixed_width := (Widget.fixed_width klass_size LAYOUT_FILL).
Local Abbreviation fill_count := (Widget.fill_count LAYOUT_FILL).
Local Abbreviation stable_width := (Widget.stable_width klass_size).

(** The computed size of a widget without a size function whose layout is
    not [LAYOUT_STACK] does not depend on the widget's bound. *)
Lemma compute_size_ignores_bound (c : Widget) (b : Rectangle) :
  klass_size (klass c) = None ->
  type (layout c) <> LAYOUT_STACK ->
  widget_compute_size klass_size (set_bound c b) = widget_compute_size klass_size c.
Proof.
  intros Hhook Hflat. destruct c as [k b0 i l a xw xh nw nh children].
  cbn [klass layout set_bound] in *.
  cbn [widget_compute_size klass]. rewrite Hhook.
  unfold size_from_children.
  cbn [layout insets max_width max_height min_width min_height].
  destruct (type l); [contradiction | reflexivity ..].
Qed.

Lemma stable_width_flat (c : Widget) :
  klass_size (klass c) = None ->
  type (layout c) <> LAYOUT_STACK ->
  stable_width c.
Proof.
  intros Hhook Hflat b _. rewrite compute_size_ignores_bound by assumption.
  reflexivity.
Qed.

Lemma fixed_width_nonneg (children : list Widget) :
  Forall (fun c => fills c = false -> 0 <= x (widget_compute_size klass_size c)) children ->
  0 <= fixed_width children.
Proof.
  induction 1 as [| c rest Hc _ IH]; cbn [Widget.fixed_width fold_right]; [lia |].
  fold (fixed_width rest).
  destruct (fills c) eqn:Hf; [exact IH |]. specialize (Hc eq_refl). lia.
Qed.

Lemma fill_count_nonneg (children : list Widget) : 0 <= fill_count children.
Proof. unfold Widget.fill_count. lia. Qed.

Lemma fill_count_cons (c : Widget) (rest : list Widget) :
  fill_count (c :: rest) = (if fills c then 1 else 0) + fill_count rest.
Proof.
  unfold Widget.fill_count. cbn [filter].
  destruct (fills c); cbn [List.length]; lia.
Qed.

Lemma fixed_width_cons (c : Widget) (rest : list Widget) :
  fixed_width (c :: rest) =
  (if fills c then 0 else x (widget_compute_size klass_size c)) + fixed_width rest.
Proof.
  unfold Widget.fixed_width. cbn [fold_right]. destruct (fills c); reflexivity.
Qed.

(** The first loop of the horizontal flow computes the sum of the fixed
    widths and the number of fill children, when nothing overflows. *)
Lemma hflow_count_sums (children : list Widget) :
  Forall (fun c => fills c = false -> 0 <= x (widget_compute_size klass_size c)) children ->
  forall fc ft flc,
    0 <= ft -> 0 <= flc ->
    ft + fixed_width children < half_modulus ->
    flc + fill_count children < half_modulus ->
    exists fc',
      fold_left (hflow_count klass_size LAYOUT_FILL) children (fc, ft, flc) =
      (fc', ft + fixed_width children, flc + fill_count children).
Proof.
  induction 1 as [| c rest Hc Hrest IH]; intros fc ft flc Hft Hflc Hsum Hcnt.
  - exists fc. cbn. unfold Widget.fixed_width, Widget.fill_count. cbn.
    rewrite !Z.add_0_r. reflexivity.
  - rewrite fixed_width_cons in *. rewrite fill_count_cons in *.
    pose proof (fixed_width_nonneg rest Hrest) as Hnn.
    pose proof (fill_count_nonneg rest) as Hcn.
    cbn [fold_left]. unfold hflow_count at 2.
    destruct (fills c) eqn:Hf.
    + assert (Hinc : iadd flc 1 = flc + 1).
      { unfold iadd. apply to_s32_small. unfold is_int.
        rewrite half_modulus_eq in *. lia. }
      rewrite Hinc.
      destruct (IH fc ft (flc + 1)) as [fc' Hfold]; try lia.
      exists fc'. rewrite Hfold. repeat (f_equal; try lia).
    + specialize (Hc eq_refl).
      assert (Hadd : iadd ft (x (widget_compute_size klass_size c)) =
                     ft + x (widget_compute_size klass_size c)).
      { unfold iadd. apply to_s32_small. unfold is_int.
        rewrite half_modulus_eq in *. lia. }
      rewrite Hadd.
      destruct (IH (iadd fc 1) (ft + x (widget_compute_size klass_size c)) flc) as [fc' Hfold]; try lia.
      exists fc'. rewrite Hfold. repeat (f_equal; try lia).
Qed.

(** The second loop, from any point on. *)
Lemma hflow_place_chained (content : Rectangle) (gap fw : Z)
      (children : list Widget) :
  0 <= gap -> 0 <= fw ->
  Forall (fun c => fills c = false ->
                   0 <= x (widget_compute_size klass_size c) /\ stable_width c)
         children ->
  forall current,
    children <> [] ->
    is_int current ->
    fixed_width children + fill_count children * fw
      + Z.of_nat (List.length children) * gap < half_modulus ->
    current + fixed_width children + fill_count children * fw
      + Z.of_nat (List.length children) * gap < half_modulus ->
    chained gap current
      (current + fixed_width children + fill_count children * fw
       + (Z.of_nat (List.length children) - 1) * gap)
      (hflow_place klass_size LAYOUT_FILL content gap fw current children)
    /\ Forall (fun b => y (position b) = y (position content)
                        /\ height b = height content)
              (hflow_place klass_size LAYOUT_FILL content gap fw current children)
    /\ Forall2 (fun c b =>
                  Widget.width b =
                  if fills c then fw else x (widget_compute_size klass_size c))
               children
               (hflow_place klass_size LAYOUT_FILL content gap fw current children).
Proof.
  intros Hgap Hfw Hall.
  induction Hall as [| c rest Hc Hrest IH]; intros current Hne Hcur Hsum Hend;
    [contradiction |].
  rewrite fixed_width_cons in *. rewrite fill_count_cons in *.
  cbn [List.length] in *. rewrite Nat2Z.inj_succ in *.
  assert (Hrest' : Forall (fun c => fills c = false ->
                             0 <= x (widget_compute_size klass_size c)) rest).
  { apply (Forall_impl _ (P := fun c => fills c = false ->
             0 <= x (widget_compute_size klass_size c) /\ stable_width c));
      [| exact Hrest].
    intros c0 H0 Hf. apply (H0 Hf). }
  pose proof (fixed_width_nonneg rest Hrest') as Hnn.
  pose proof (fill_count_nonneg rest) as Hcn.
  assert (Hprod : 0 <= fill_count rest * fw) by nia.
  assert (Hgaps : 0 <= Z.of_nat (List.length rest) * gap) by nia.
  set (wc := if fills c then fw else x (widget_compute_size klass_size c)).
  assert (Hwc : 0 <= wc).
  { unfold wc. destruct (fills c); [exact Hfw | apply Hc; reflexivity]. }
  assert (Hagain : fills c = false ->
            x (widget_compute_size klass_size
                 (set_bound c (RECT current (y (position content)) wc
                                    (Widget.height content)))) = wc).
  { intros Hf. unfold wc. rewrite Hf.
    destruct (Hc Hf) as [_ Hstable]. apply Hstable. reflexivity. }
  assert (Hwsum : (if fills c then 0 else x (widget_compute_size klass_size c))
                  + (if fills c then 1 else 0) * fw = wc).
  { unfold wc. destruct (fills c); lia. }
  assert (Hexp : ((if fills c then 1 else 0) + fill_count rest) * fw =
                 (if fills c then 1 else 0) * fw + fill_count rest * fw) by ring.
  assert (Hexp' : Z.succ (Z.of_nat (List.length rest)) * gap =
                  Z.of_nat (List.length rest) * gap + gap) by ring.
  assert (Hexp'' : (Z.succ (Z.of_nat (List.length rest)) - 1) * gap =
                   Z.of_nat (List.length rest) * gap) by ring.
  rewrite Hexp, Hexp' in Hsum, Hend. rewrite Hexp, Hexp''.
  assert (Hnext : iadd current (iadd wc gap) = current + wc + gap).
  { unfold iadd. rewrite (to_s32_small (wc + gap))
      by (unfold is_int; rewrite half_modulus_eq in *; lia).
    replace (current + (wc + gap)) with (current + wc + gap) by lia.
    apply to_s32_small. unfold is_int in *. rewrite half_modulus_eq in *. lia. }
  assert (Hplace :
    hflow_place klass_size LAYOUT_FILL content gap fw current (c :: rest) =
    RECT current (y (position content)) wc (height content) ::
    hflow_place klass_size LAYOUT_FILL content gap fw (current + wc + gap) rest).
  { cbn [hflow_place]. unfold wc in *. destruct (fills c).
    - rewrite Hnext. reflexivity.
    - cbv zeta. rewrite (Hagain eq_refl), Hnext. reflexivity. }
  rewrite Hplace.
  destruct rest as [| c' rest'].
  - cbn [hflow_place chained RECT position size x y Widget.width Widget.height].
    unfold Widget.fixed_width, Widget.fill_count in *. cbn in *.
    split; [split; [reflexivity | lia] |].
    split; [constructor; [split; reflexivity | constructor] |].
    constructor; [reflexivity | constructor].
  - destruct (IH (current + wc + gap)) as [Hchain [Hys Hwidths]].
    + discriminate.
    + unfold is_int in *. rewrite half_modulus_eq in *. lia.
    + lia.
    + lia.
    + split.
      * remember (c' :: rest') as tail eqn:Htail.
        assert (Hshape : exists b t,
                   hflow_place klass_size LAYOUT_FILL content gap fw
                     (current + wc + gap) tail = b :: t).
        { rewrite Htail. cbn [hflow_place]. destruct (fills c'); cbv zeta;
            eexists; eexists; reflexivity. }
        destruct Hshape as [b [t Hshape]].
        cbn [chained]. rewrite Hshape in *.
        cbn [RECT position size x Widget.width].
        split; [reflexivity |].
        assert (Hlen : (Z.of_nat (List.length tail) - 1) * gap + gap =
                       Z.of_nat (List.length tail) * gap) by ring.
        match goal with
        | |- chained _ _ ?stop _ =>
            match type of Hchain with
            | chained _ _ ?stop' _ => replace stop with stop' by lia
            end
        end.
        exact Hchain.
      * split; [constructor; [split; reflexivity | exact Hys] |].
        constructor; [reflexivity | exact Hwidths].
Qed.

(** X24.  [LAYOUT_HFLOW], in a tree whose classes have no layout function,
    with at least one fill child, enough room, and fixed children whose
    computed width is non-negative and stays the same once their bound has
    that width: the children follow one another from the left edge of the
    content area, one spacing apart, fixed children with their computed
    width and fill children with an equal share of the room that is left;
    all have the vertical position and the height of the content area; and
    the row ends at or before the right edge of the content area, short of
    it by less than the number of fill children (the remainder of the
    division is not handed out).  (The extents are assumed small enough for
    [int].) *)
Theorem layout_hflow_row (w w' : Widget) (content : Rectangle) (n gap : Z) :
  (forall k, klass_layout k = None) ->
  type (layout w) = LAYOUT_HFLOW ->
  widget_layout w = Some w' ->
  content = widget_get_content_bound rectangle_shrink w ->
  n = Z.of_nat (List.length (childs w)) ->
  gap = x (spacing (layout w)) ->
  1 <= fill_count (childs w) ->
  0 <= gap ->
  Forall (fun c => fills c = false ->
                   0 <= x (widget_compute_size klass_size c) /\ stable_width c)
         (childs w) ->
  fixed_width (childs w) + gap * (n - 1) <= Widget.width content ->
  n < half_modulus ->
  is_int (x (position content)) ->
  Widget.width content + gap < half_modulus ->
  x (position content) + Widget.width content + gap < half_modulus ->
  exists stop,
    chained gap (x (position content)) stop (map bound (childs w'))
    /\ x (position content) + Widget.width content - fill_count (childs w) < stop
       <= x (position content) + Widget.width content
    /\ Forall (fun b => y (position b) = y (position content)
                        /\ Widget.height b = Widget.height content)
              (map bound (childs w'))
    /\ Forall2 (fun c b =>
                  Widget.width b =
                  if fills c
                  then (Widget.width content - gap * (n - 1) - fixed_width (childs w))
                       / fill_count (childs w)
                  else x (widget_compute_size klass_size c))
               (childs w) (map bound (childs w')).
Proof.
  intros Hfree Hflow Hlay Hcontent Hn Hgapdef Hfill Hgap Hall Hroom Hcount
         Hpos Hwide Hend.
  assert (Hne : childs w <> []).
  { intros Hnil. rewrite Hnil in Hfill. unfold Widget.fill_count in Hfill.
    cbn in Hfill. lia. }
  assert (Hall' : Forall (fun c => fills c = false ->
                            0 <= x (widget_compute_size klass_size c)) (childs w)).
  { apply (Forall_impl _ (P := fun c => fills c = false ->
             0 <= x (widget_compute_size klass_size c) /\ stable_width c));
      [| exact Hall].
    intros c0 H0 Hf. apply (H0 Hf). }
  pose proof (layout_children_bounds w w' Hfree Hne Hlay) as Hplace.
  unfold Widget.place_children in Hplace. rewrite Hflow in Hplace.
  rewrite <- Hcontent, <- Hn, <- Hgapdef in Hplace.
  pose proof (fixed_width_nonneg (childs w) Hall') as Hfixed.
  assert (Hn1 : 1 <= n).
  { rewrite Hn. destruct (childs w); [contradiction | cbn [List.length]; lia]. }
  assert (Hm : fill_count (childs w) <= n).
  { rewrite Hn. unfold Widget.fill_count. apply inj_le. apply filter_length_le. }
  rewrite half_modulus_eq in *.
  destruct (hflow_count_sums (childs w) Hall' 0 0 0) as [fc Hfold]; try lia.
  { rewrite half_modulus_eq. nia. }
  { rewrite half_modulus_eq. lia. }
  rewrite Hfold in Hplace. rewrite !Z.add_0_l in Hplace.
  set (F := fixed_width (childs w)) in *.
  set (m := fill_count (childs w)) in *.
  set (W := Widget.width content) in *.
  set (origin := x (position content)) in *.
  assert (Hgaps : 0 <= gap * (n - 1)) by nia.
  assert (H1 : isub n 1 = n - 1).
  { unfold isub. apply to_s32_small. unfold is_int. rewrite half_modulus_eq. lia. }
  assert (H2 : imul gap (n - 1) = gap * (n - 1)).
  { unfold imul. apply to_s32_small. unfold is_int. rewrite half_modulus_eq. lia. }
  assert (H3 : isub W (gap * (n - 1)) = W - gap * (n - 1)).
  { unfold isub. apply to_s32_small. unfold is_int. rewrite half_modulus_eq. lia. }
  assert (H4 : isub (W - gap * (n - 1)) F = W - gap * (n - 1) - F).
  { unfold isub. apply to_s32_small. unfold is_int. rewrite half_modulus_eq. lia. }
  rewrite H1, H2, H3, H4 in Hplace.
  set (G := W - gap * (n - 1) - F) in *.
  assert (HG : 0 <= G) by (unfold G; lia).
  rewrite !MAX_spec in Hplace.
  rewrite (Z.max_r 0 G) in Hplace by lia.
  rewrite (Z.max_r 1 m) in Hplace by lia.
  assert (Hquot : Z.quot G m = G / m) by (apply Z.quot_div_nonneg; lia).
  pose proof (Z.div_mod G m ltac:(lia)) as Hdivmod.
  pose proof (Z.mod_pos_bound G m ltac:(lia)) as Hmod.
  assert (Hfw : 0 <= G / m) by (apply Z.div_pos; lia).
  assert (HfwG : m * (G / m) <= G) by lia.
  assert (H5 : idiv G m = Some (G / m)).
  { unfold idiv, traps.
    replace (m =? 0) with false by (symmetry; apply Z.eqb_neq; lia).
    replace (m =? -1) with false by (symmetry; apply Z.eqb_neq; lia).
    rewrite andb_false_r. cbn [orb]. rewrite Hquot. f_equal.
    apply to_s32_small. unfold is_int. rewrite half_modulus_eq. nia. }
  rewrite H5 in Hplace. injection Hplace as Hbounds.
  destruct (hflow_place_chained content gap (G / m) (childs w) Hgap Hfw Hall
              origin Hne Hpos) as [Hchain [Hys Hwidths]].
  - rewrite half_modulus_eq. fold F m. rewrite <- Hn. unfold G in *. nia.
  - rewrite half_modulus_eq. fold F m. rewrite <- Hn. unfold G in *. nia.
  - fold F m in Hchain. rewrite <- Hn in Hchain. rewrite <- Hbounds.
    eexists. split; [exact Hchain |]. split; [| split; [exact Hys | exact Hwidths]].
    unfold G in *. nia.
Qed.

End WidgetProperties.

(** ** Runs of the toolkit models on concrete inputs *)

Lemma dialog_layer_attach_balance_witness :
  DialogLayer.attached
    (snd (DialogLayer.create (Rect := Z) (Event := Z) 1%nat) ++
     [DialogLayer.ShouldLayout; DialogLayer.Animate 1;
      DialogLayer.Attach 2%nat; DialogLayer.NodeLayout 1%nat 0;
      DialogLayer.NodeLayout 2%nat 0]) = 1 + 1
  /\ DialogLayer.attached
       (snd (DialogLayer.create (Rect := Z) (Event := Z) 1%nat) ++
        [DialogLayer.ShouldLayout; DialogLayer.Animate 1;
         DialogLayer.Attach 2%nat; DialogLayer.NodeLayout 1%nat 0;
         DialogLayer.NodeLayout 2%nat 0] ++
        DialogLayer.destroy (DialogLayer.mk 1%nat (Some 2%nat) None false)) = 0.
Proof.
  apply (dialog_layer_attach_balance (Node := nat) (Rect := Z) (Event := Z) 1%nat
           [DialogLayer.Show 2%nat; DialogLayer.Layout 0]
           (DialogLayer.mk 1%nat (Some 2%nat) None false)).
  reflexivity.
Defined.

Lemma dialog_show_deferred_and_wins_witness :
  exists s1 (done1 : list (DialogLayer.effect (Node := nat) (Rect := Z) (Event := Z)))
         s2 (done2 : list (DialogLayer.effect (Node := nat) (Rect := Z) (Event := Z))),
    DialogLayer.run (DialogLayer.Show 3%nat :: repeat DialogLayer.Close 2)
      (DialogLayer.mk 1%nat (Some 2%nat) None false) = Some (s1, done1)
    /\ DialogLayer._dialog s1 = Some 2%nat
    /\ existsb DialogLayer.attaches done1 = false
    /\ DialogLayer.attached done1 = 0
    /\ DialogLayer.layout 0 s1 = Some (s2, done2)
    /\ DialogLayer._dialog s2 = Some 3%nat
    /\ DialogLayer._shouldShow s2 = None
    /\ DialogLayer._shouldClose s2 = false.
Proof.
  apply (dialog_show_deferred_and_wins (Node := nat) (Rect := Z) (Event := Z)
           (DialogLayer.mk 1%nat (Some 2%nat) None false) 3%nat 2 0).
  unfold DialogLayer.close_has_dialog. cbn. intros H. discriminate H.
Defined.

Lemma dialog_close_then_layout_witness :
  DialogLayer.run (Node := nat) (Rect := Z) (Event := Z)
    [DialogLayer.Close; DialogLayer.Layout 0; DialogLayer.Deliver 5]
    (DialogLayer.mk 1%nat (Some 2%nat) None false) =
  Some (DialogLayer.mk 1%nat None None false,
        [DialogLayer.ShouldLayout; DialogLayer.Animate 0; DialogLayer.Detach 2%nat;
         DialogLayer.NodeLayout 1%nat 0; DialogLayer.AnimEvent 5;
         DialogLayer.NodeEvent 1%nat 5]).
Proof.
  apply (dialog_close_then_layout (Node := nat) (Rect := Z) (Event := Z)
           (DialogLayer.mk 1%nat (Some 2%nat) None false) 2%nat 0 5);
    reflexivity.
Defined.

Lemma dialog_layout_settles_witness :
  DialogLayer._shouldShow (DialogLayer.mk 1%nat (Some 3%nat) None false) = None
  /\ DialogLayer._shouldClose (DialogLayer.mk 1%nat (Some 3%nat) None false) = false
  /\ DialogLayer.layout (Event := Z) 7 (DialogLayer.mk 1%nat (Some 3%nat) None false) =
     Some (DialogLayer.mk 1%nat (Some 3%nat) None false,
           [DialogLayer.NodeLayout 1%nat 7; DialogLayer.NodeLayout 3%nat 7]).
Proof.
  apply (dialog_layout_settles (Node := nat) (Rect := Z) (Event := Z)
           (DialogLayer.mk 1%nat (Some 2%nat) (Some 3%nat) true)
           (DialogLayer.mk 1%nat (Some 3%nat) None false) 0 7
           [DialogLayer.Detach 2%nat; DialogLayer.Attach 3%nat;
            DialogLayer.NodeLayout 1%nat 0; DialogLayer.NodeLayout 3%nat 0]).
  reflexivity.
Defined.

(** A layer in a state that no sequence of calls reaches: a close pending
    without a dialog makes [layout] dereference the empty [_dialog]. *)
Example dialog_layout_panics_without_dialog :
  DialogLayer.layout (Node := nat) (Rect := Z) (Event := Z) 0
    (DialogLayer.mk 1%nat None None true) = None.
Proof. reflexivity. Qed.

Lemma compute_size_constraints_witness :
  Widget.x (Widget.widget_compute_size no_size_hook sample_row) = 20
  /\ 20 <= Widget.x (Widget.widget_compute_size no_size_hook sample_row).
Proof.
  destruct (compute_size_constraints no_size_hook sample_row eq_refl)
    as [Hmin [_ [Hwins _]]].
  split.
  - apply Hwins; cbn; lia.
  - apply Hmin. cbn. lia.
Defined.

Lemma compute_size_childless_horizontal_witness :
  Widget.x (Widget.widget_compute_size no_size_hook sample_empty_flow) = 1 + 1 - 8.
Proof.
  apply (compute_size_childless_horizontal no_size_hook sample_empty_flow);
    try reflexivity;
    unfold is_int; rewrite half_modulus_eq; cbn; lia.
Defined.

Lemma vhgrid_layout_fills_content_witness :
  exists placed,
    Widget.widget_do_vhgrid_layout sample_shrink sample_invert sample_row
      (Widget.layout sample_row) Widget.DIM_X = Some placed
    /\ Widget.tiles Widget.DIM_X 1 2 (2 + 10) placed
    /\ Forall (fun c =>
                 Widget.component Widget.DIM_Y (Widget.position (Widget.bound c)) = 1
                 /\ Widget.component Widget.DIM_Y (Widget.size (Widget.bound c)) = 7
                 /\ (10 - 1 * (3 - 1)) / 3
                    <= Widget.component Widget.DIM_X (Widget.size (Widget.bound c))
                    <= (10 - 1 * (3 - 1)) / 3 + 1)
              placed.
Proof.
  apply (vhgrid_layout_fills_content sample_shrink sample_invert sample_row
           (Widget.layout sample_row) Widget.DIM_X
           (Widget.widget_get_content_bound sample_shrink sample_row) 3 1);
    try reflexivity;
    try (unfold is_int; rewrite ?half_modulus_eq; cbn; lia).
  intros H. discriminate H.
Defined.

(** The placement of the sample row: lengths 3, 3 and 2 from 2 to 12. *)
Example sample_row_placed :
  option_map (map (fun c => (Widget.x (Widget.position (Widget.bound c)),
                             Widget.x (Widget.size (Widget.bound c)))))
    (Widget.widget_do_vhgrid_layout sample_shrink sample_invert sample_row
       (Widget.layout sample_row) Widget.DIM_X)
  = Some [(2, 3); (6, 3); (10, 2)].
Proof. reflexivity. Qed.

(** A grid without children divides by zero. *)
Example vhgrid_without_children :
  Widget.widget_do_vhgrid_layout sample_shrink sample_invert sample_leaf
    (Widget.layout sample_leaf) Widget.DIM_X = None.
Proof. reflexivity. Qed.

Lemma layout_changes_only_descendant_bounds_witness :
  Widget.without_bounds sample_flow_laid_out = Widget.without_bounds sample_flow
  /\ Widget.bound sample_flow_laid_out = Widget.bound sample_flow.
Proof.
  apply (layout_changes_only_descendant_bounds no_size_hook sample_shrink
           sample_invert no_layout_hook sample_fill_bit
           sample_flow sample_flow_laid_out).
  - intros k. reflexivity.
  - reflexivity.
Defined.

Lemma layout_stack_fills_witness :
  List.length (Widget.childs sample_stack_laid_out) =
    List.length (Widget.childs sample_stack)
  /\ Forall (fun c => Widget.bound c =
                      Widget.widget_get_content_bound sample_shrink sample_stack)
            (Widget.childs sample_stack_laid_out).
Proof.
  apply (layout_stack_fills no_size_hook sample_shrink sample_invert no_layout_hook
           sample_fill_bit sample_stack sample_stack_laid_out).
  - intros k. reflexivity.
  - reflexivity.
  - intros H. discriminate H.
  - reflexivity.
Defined.

(** The fixed child of the sample flow has no insets: its computed width
    is the width of its bound. *)
Lemma sample_fixed_stable : Widget.stable_width no_size_hook sample_fixed.
Proof.
  intros b Hb. destruct b as [p [sx sy]].
  cbn in Hb. subst sx. reflexivity.
Qed.

Lemma layout_hflow_row_witness :
  exists stop,
    Widget.chained 1 2 stop (map Widget.bound (Widget.childs sample_flow_laid_out))
    /\ 2 + 10 - 2 < stop <= 2 + 10
    /\ Forall (fun b => Widget.y (Widget.position b) = 1 /\ Widget.height b = 7)
              (map Widget.bound (Widget.childs sample_flow_laid_out))
    /\ Forall2 (fun c b =>
                  Widget.width b =
                  if Widget.fills sample_fill_bit c
                  then (10 - 1 * (3 - 1) - 3) / 2
                  else Widget.x (Widget.widget_compute_size no_size_hook c))
               (Widget.childs sample_flow)
               (map Widget.bound (Widget.childs sample_flow_laid_out)).
Proof.
  apply (layout_hflow_row no_size_hook sample_shrink sample_invert no_layout_hook
           sample_fill_bit sample_flow sample_flow_laid_out
           (Widget.widget_get_content_bound sample_shrink sample_flow) 3 1);
    first [ reflexivity
          | intros k; reflexivity
          | unfold is_int; rewrite ?half_modulus_eq; cbn; lia
          | idtac ].
  unfold sample_flow. cbn [Widget.childs].
  apply Forall_cons; [intros Hfixed; discriminate Hfixed |].
  apply Forall_cons;
    [intros _; split; [cbn; lia | exact sample_fixed_stable] |].
  apply Forall_cons; [intros Hfixed; discriminate Hfixed |].
  apply Forall_nil.
Defined.

(** The sample flow laid out: widths 2, 3 and 2 from 2 to 11, one unit
    short of the right edge at 12. *)
Example sample_flow_placed :
  map (fun c => (Widget.x (Widget.position (Widget.bound c)),
                 Widget.width (Widget.bound c)))
      (Widget.childs sample_flow_laid_out)
  = [(2, 2); (5, 3); (9, 2)].
Proof. reflexivity. Qed.

(** A grid of zero columns divides by zero. *)
Example layout_grid_without_columns :
  sample_layout
    (Widget.mkWidget 0
       (Widget.RECTANGLE (Widget.vec2i 0 0) (Widget.vec2i 14 9))
       (Widget.mkInsets 0 0 0 0)
       (Widget.mkLayout Widget.LAYOUT_GRID 0 2 (Widget.vec2i 0 0))
       0 0 0 0 0 [sample_fixed]) = None.
Proof. reflexivity. Qed.

(** A grid of minus one column over a content area [INT_MIN] wide
    divides [INT_MIN] by -1. *)
Example layout_grid_minus_one_column :
  sample_layout
    (Widget.mkWidget 0
       (Widget.RECTANGLE (Widget.vec2i 0 0) (Widget.vec2i (- half_modulus) 9))
       (Widget.mkInsets 0 0 0 0)
       (Widget.mkLayout Widget.LAYOUT_GRID (-1) 2 (Widget.vec2i 0 0))
       0 0 0 0 0 [sample_fixed]) = None.
Proof. reflexivity. Qed.

(** The two divisions that trap, and two that do not. *)
Example division_traps :
  Widget.idiv (- half_modulus) (-1) = None
  /\ Widget.idiv 7 0 = None
  /\ Widget.idiv (-7) 2 = Some (-3)
  /\ Widget.irem (-7) 2 = Some (-1).
Proof. repeat split. Qed.

(** A fixed child whose computed width grows with its bound: the stack
    child with insets is 7 wide by its old bound and 11 wide by the bound it
    is given, so the flow advances by 11 and the fill child, 32 wide,
    begins at 12 and ends at 44, past the right edge at 40. *)
Example padded_flow_placed :
  Widget.x (Widget.widget_compute_size no_size_hook sample_padded) = 7
  /\ Widget.x (Widget.widget_compute_size no_size_hook
                 (Widget.set_bound sample_padded (Widget.RECT 0 0 7 9))) = 11
  /\ option_map
       (fun w => map (fun c => (Widget.x (Widget.position (Widget.bound c)),
                                Widget.width (Widget.bound c)))
                     (Widget.childs w))
       (sample_layout sample_padded_flow)
     = Some [(0, 7); (12, 32)].
Proof. repeat split. Qed.
